(** * sumread: a verified model of the WOCE sum-file reader

    Shallow embedding of [sumread.py]: the Python built-ins the reader
    relies on ([str.splitlines], [str.strip], [float], [itertools.groupby],
    [collections.Counter], ...), the field getters, and the generator
    [read_sum], followed by the properties of the reader. *)

From Stdlib Require Import ZArith Ascii String List Bool Lia.
From Stdlib Require Import SpecFloat.
From stdpp Require Import base option list gmap strings.

Local Open Scope string_scope.
Local Open Scope list_scope.

Set Warnings "-clear-no-such-hyp".

(** ** Exceptions and results *)

(** The exceptions that the reader can raise: [InvalidSumError] is the
    module's own class, the others are Python's built-in ones. *)
Inductive exn : Type :=
  | InvalidSumError (msg : string)
  | UnboundLocalError (name : string)
  | IndexError
  | KeyError (key : string)
  | ValueError
  | TypeError.

Inductive result (A : Type) : Type :=
  | Ok (a : A)
  | Raise (e : exn).
Arguments Ok {A} a.
Arguments Raise {A} e.

Global Instance result_bind : MBind result := fun A B k m =>
  match m with
  | Ok a => k a
  | Raise e => Raise e
  end.

Global Instance result_ret : MRet result := fun A a => Ok a.

Global Instance result_fmap : FMap result := fun A B f m =>
  match m with
  | Ok a => Ok (f a)
  | Raise e => Raise e
  end.

(** [[f(x) for x in l]] where [f] may raise: the first failure wins. *)
Fixpoint mapM {A B} (f : A -> result B) (l : list A) : result (list B) :=
  match l with
  | [] => Ok []
  | x :: l' => y ← f x; ys ← mapM f l'; Ok (y :: ys)
  end.

(** ** Python built-ins on [str] *)

Module Py.

Definition chars (s : string) : list ascii := list_ascii_of_string s.
Definition str (l : list ascii) : string := string_of_list_ascii l.

Definition code (c : ascii) : nat := nat_of_ascii c.

(** [bytes.decode("ascii")]: every byte must be below 128. *)
Definition is_ascii (data : string) : bool :=
  forallb (fun c => code c <? 128)%nat (chars data).

(** [str.isspace] on one ASCII character: TAB, LF, VT, FF, CR, FS, GS,
    RS, US and the space. *)
Definition isspace (c : ascii) : bool :=
  let n := code c in
  ((9 <=? n) && (n <=? 13) || (28 <=? n) && (n <=? 32))%nat.

Fixpoint dropwhile (p : ascii -> bool) (l : list ascii) : list ascii :=
  match l with
  | c :: l' => if p c then dropwhile p l' else l
  | [] => []
  end.

Definition lstrip_chars (l : list ascii) : list ascii := dropwhile isspace l.
Definition rstrip_chars (l : list ascii) : list ascii :=
  rev (dropwhile isspace (rev l)).

Definition lstrip (s : string) : string := str (lstrip_chars (chars s)).
Definition rstrip (s : string) : string := str (rstrip_chars (chars s)).
Definition strip (s : string) : string :=
  str (rstrip_chars (lstrip_chars (chars s))).

(** [str.upper] on ASCII text. *)
Definition upper_char (c : ascii) : ascii :=
  let n := code c in
  if ((97 <=? n) && (n <=? 122))%nat then ascii_of_nat (n - 32) else c.
Definition upper (s : string) : string := str (map upper_char (chars s)).

Fixpoint prefix_chars (p l : list ascii) : bool :=
  match p, l with
  | [], _ => true
  | a :: p', b :: l' => Ascii.eqb a b && prefix_chars p' l'
  | _ :: _, [] => false
  end.

(** [s.startswith(p)] *)
Definition startswith (s p : string) : bool := prefix_chars (chars p) (chars s).

Fixpoint find_chars (p l : list ascii) (pos : nat) : option nat :=
  if prefix_chars p l then Some pos
  else match l with
       | [] => None
       | _ :: l' => find_chars p l' (S pos)
       end.

(** [s.index(sub)]: the offset of the first occurrence; [None] stands
    for the [ValueError] that the callers catch. *)
Definition index (s sub : string) : option nat := find_chars (chars sub) (chars s) 0.

(** [sep.join(l)] *)
Fixpoint join (sep : string) (l : list string) : string :=
  match l with
  | [] => ""
  | [x] => x
  | x :: l' => x ++ sep ++ join sep l'
  end.

(** [s[start:stop]] for [0 <= start <= stop]: out-of-range bounds are
    clipped to the length of [s]. *)
Definition slice (s : string) (start stop : nat) : string :=
  str (take (stop - start) (drop start (chars s))).

(** Line boundaries recognised by [str.splitlines] in ASCII text:
    LF, VT, FF, CR, FS, GS, RS; CR LF counts as one boundary. *)
Definition is_linebreak (c : ascii) : bool :=
  let n := code c in
  ((10 <=? n) && (n <=? 13) || (28 <=? n) && (n <=? 30))%nat.

(** [cur] is the current line, reversed; [after_cr] tells that the
    previous character was a CR, so that a LF now belongs to it. *)
Fixpoint splitlines_aux (l : list ascii) (cur : list ascii) (after_cr : bool)
  : list string :=
  match l with
  | [] => match cur with [] => [] | _ => [str (rev cur)] end
  | c :: l' =>
      if after_cr && (code c =? 10)%nat then splitlines_aux l' cur false
      else if is_linebreak c
           then str (rev cur) :: splitlines_aux l' [] (code c =? 13)%nat
           else splitlines_aux l' (c :: cur) false
  end.

(** [s.splitlines()] *)
Definition splitlines (s : string) : list string := splitlines_aux (chars s) [] false.

(** [l[i]] with Python's negative indices. *)
Definition getitem {A} (l : list A) (i : Z) : result A :=
  let n := Z.of_nat (length l) in
  let j := (if i <? 0 then i + n else i)%Z in
  if (j <? 0)%Z then Raise IndexError
  else match l !! Z.to_nat j with
       | Some x => Ok x
       | None => Raise IndexError
       end.

(** [l.index(x)]: [None] stands for [ValueError]. *)
Fixpoint list_index (x : string) (l : list string) : option nat :=
  match l with
  | [] => None
  | y :: l' => if String.eqb y x then Some 0%nat else S <$> list_index x l'
  end.

End Py.

(** ** Python's [float]

    A Python float is an IEEE 754 binary64 number; it is modelled by
    [spec_float] with the operations of [SpecFloat] at precision 53 and
    maximal exponent 1024 (rounding to nearest, ties to even). *)

Module PyFloat.

Definition prec : Z := 53.
Definition emax : Z := 1024.

Definition add : spec_float -> spec_float -> spec_float := SFadd prec emax.
Definition mul : spec_float -> spec_float -> spec_float := SFmul prec emax.
Definition div : spec_float -> spec_float -> spec_float := SFdiv prec emax.

(** The float nearest to [m * 2^e]. *)
Definition dyadic (m e : Z) : spec_float := binary_normalize prec emax m e false.

(** [float(n)] for an [int] *)
Definition of_int (n : Z) : spec_float := dyadic n 0.

(** The float nearest to [(-1)^neg * m * 10^e], for [0 <= m]. *)
Definition of_decimal (neg : bool) (m e : Z) : spec_float :=
  match m with
  | Zpos p =>
      match e with
      | Zneg k => div (S754_finite neg p 0) (S754_finite false (10 ^ k)%positive 0)
      | _ => binary_normalize prec emax ((if neg then - m else m) * 10 ^ e)%Z 0 neg
      end
  | _ => S754_zero neg
  end.

Definition is_digit (c : ascii) : bool :=
  let n := Py.code c in ((48 <=? n) && (n <=? 57))%nat.
Definition digit (c : ascii) : Z := Z.of_nat (Py.code c - 48).

(** Reads the longest run of decimal digits at the head of [l]: the
    accumulated value, the number of digits read and the rest. *)
Fixpoint digits (l : list ascii) (acc : Z) (n : nat) : Z * nat * list ascii :=
  match l with
  | c :: l' => if is_digit c then digits l' (10 * acc + digit c)%Z (S n) else (acc, n, l)
  | [] => (acc, n, [])
  end.

(** An optional sign: [true] for [-]. *)
Definition sign (l : list ascii) : bool * list ascii :=
  match l with
  | "-"%char :: l' => (true, l')
  | "+"%char :: l' => (false, l')
  | _ => (false, l)
  end.

(** The exponent part: nothing, or [e]/[E], an optional sign and at
    least one digit, up to the end of the text. *)
Definition exponent (l : list ascii) : option Z :=
  match l with
  | [] => Some 0%Z
  | c :: l' =>
      if Ascii.eqb (Py.upper_char c) "E" then
        let '(neg, l1) := sign l' in
        match digits l1 0 0 with
        | (_, O, _) => None
        | (v, _, []) => Some (if neg then - v else v)%Z
        | _ => None
        end
      else None
  end.

(** [[sign] digits [. digits] [exponent]] with at least one digit. *)
Definition number (neg : bool) (l : list ascii) : option spec_float :=
  let '(ip, ni, l1) := digits l 0 0 in
  let '(m, nf, l2) :=
    match l1 with
    | "."%char :: l1' => let '(m, n, l2) := digits l1' ip 0 in (m, n, l2)
    | _ => (ip, O, l1)
    end in
  match (ni + nf)%nat with
  | O => None
  | _ => e ← exponent l2; Some (of_decimal neg m (e - Z.of_nat nf))
  end.

(** [inf], [infinity] and [nan], in any case. *)
Definition inf_or_nan (neg : bool) (l : list ascii) : option spec_float :=
  let u := Py.str (map Py.upper_char l) in
  if String.eqb u "INF" || String.eqb u "INFINITY" then Some (S754_infinity neg)
  else if String.eqb u "NAN" then Some S754_nan
  else None.

Definition parse (l : list ascii) : option spec_float :=
  let '(neg, l') := sign l in
  match number neg l' with
  | Some x => Some x
  | None => inf_or_nan neg l'
  end.

(** Underscores are allowed between two digits only. *)
Fixpoint underscores_ok (prev : option ascii) (l : list ascii) : bool :=
  match l with
  | [] => match prev with Some "_"%char => false | _ => true end
  | c :: l' =>
      (if Ascii.eqb c "_"
       then match prev with Some p => is_digit p | None => false end
       else match prev with Some "_"%char => is_digit c | _ => true end)
      && underscores_ok (Some c) l'
  end.

(** The white space that [float] itself removes around its argument:
    TAB, LF, VT, FF, CR and the space. *)
Definition c_isspace (c : ascii) : bool :=
  let n := Py.code c in ((9 <=? n) && (n <=? 13) || (n =? 32))%nat.

Definition c_strip (l : list ascii) : list ascii :=
  rev (Py.dropwhile c_isspace (rev (Py.dropwhile c_isspace l))).

(** [float(s)] for ASCII text; [None] stands for [ValueError]. *)
Definition of_str (s : string) : option spec_float :=
  let l := Py.chars s in
  if existsb (Ascii.eqb "_") l
  then if underscores_ok None l
       then parse (c_strip (filter (fun c => c <> "_"%char) l))
       else None
  else parse (c_strip l).

End PyFloat.

(** ** The alias table *)

Definition TAB : string := String (ascii_of_nat 9) "".

Definition POSSIBILITIES : list (string * list string) :=
  [ ("expocode", ["EXPOCODE"]);
    ("woce_sect", ["SECT"; "WHP-ID"; "WOCE"]);
    ("stnnbr", ["STNNBR"]);
    ("castno", ["CASTNO"]);
    ("parameters", ["PARAMETERS"; "PARAM"; "PARAMETER"; "PARAMS"; "PARAMATER"; "PARAMMETER"]);
    ("comments", ["COM"; "COMM"; "COMME"; "COMMEN"; "COMMUNTS"; "COMMENTS";
                  "COMMENT"; "COMMMENTS"; "MOORING"; "C"; "CO"; ("COMMENTS" ++ TAB)%string]);
    ("max_pressure", ["PRESS"; "PRESSURE"]);
    ("wire", ["WIRE"; "OUT"; "WHEEL"]);
    ("bottles", ["BOTTLES"; "BOTTLE"]);
    ("height", ["BOTTOM"; "ALT"]);
    ("lat", ["LATITUDE"]);
    ("lon", ["LONGITUDE"]);
    ("type", ["TYPE"]);
    ("date", ["DATE"]);
    ("time", ["TIME"]);
    ("event", ["CODE"]);
    ("nav", ["NAV"]);
    ("depth", ["DEPTH"]);
    ("corrected_depth", ["CDEPTH"]) ].

(** [for key, values in POSSIBILITIES.items(): for value in values:
    INVERTED_POSSIBILITIES[value] = key] *)
Definition INVERTED_POSSIBILITIES : gmap string string :=
  foldl (fun inv '(key, values) =>
           foldl (fun inv value => <[value := key]> inv) inv values)
        ∅ POSSIBILITIES.

(** [d[k]] on a dict: a missing key raises [KeyError(k)]. *)
Definition subscript {V} (d : gmap string V) (k : string) : result V :=
  match d !! k with
  | Some v => Ok v
  | None => Raise (KeyError k)
  end.

(** ** Field getters

    A getter receives the deque of the tokens of one row and returns the
    decoded value together with the deque as it leaves it. *)

Inductive value : Type :=
  | VNone
  | VStr (s : string)
  | VFloat (x : spec_float).

Abbreviation deque := (list string) (only parsing).
Abbreviation getter := (list string -> result (value * list string)) (only parsing).

(** [d.popleft()] *)
Definition popleft (d : deque) : result (string * deque) :=
  match d with
  | x :: d' => Ok (x, d')
  | [] => Raise IndexError
  end.

Definition simple_get : getter := fun d =>
  match popleft d with
  | Ok (x, d') => Ok (VStr x, d')
  | Raise IndexError => Ok (VNone, d)
  | Raise e => Raise e
  end.

(** [set("1234567890,- ")] *)
Definition allowed (c : ascii) : bool :=
  existsb (Ascii.eqb c) (Py.chars "1234567890,- ").

Definition params_get : getter := fun d =>
  match d with
  | [] => Ok (VNone, d)
  | params :: _ =>
      if forallb allowed (Py.chars params)
      then '(x, d') ← popleft d; Ok (VStr x, d')
      else Ok (VNone, d)
  end.

Definition comments_get : getter := fun d => Ok (VStr (Py.join " " d), d).

Definition hem : gmap string Z :=
  <["W" := (-1)%Z]> (<["E" := 1%Z]> (<["S" := (-1)%Z]> (<["N" := 1%Z]> ∅))).

Definition latlon_get : getter := fun d =>
  '(degree, d) ← popleft d;
  let degree := Py.strip degree in
  '(minute, d) ← popleft d;
  let minute := Py.strip minute in
  '(hemisphere, d) ← popleft d;
  let hemisphere := Py.upper (Py.strip hemisphere) in
  match PyFloat.of_str degree with
  | None => Ok (VNone, d)
  | Some degree =>
      match PyFloat.of_str minute with
      | None => Ok (VNone, d)
      | Some minute =>
          sign ← subscript hem hemisphere;
          Ok (VFloat (PyFloat.mul
                        (PyFloat.add degree (PyFloat.div minute (PyFloat.of_int 60)))
                        (PyFloat.of_int sign)), d)
      end
  end.

Definition GETTERS : gmap string getter :=
  list_to_map
    [ ("expocode", simple_get); ("woce_sect", simple_get); ("stnnbr", simple_get);
      ("castno", simple_get); ("type", simple_get); ("date", simple_get);
      ("time", simple_get); ("event", simple_get); ("lat", latlon_get);
      ("lon", latlon_get); ("nav", simple_get); ("depth", simple_get);
      ("corrected_depth", simple_get); ("height", simple_get); ("wire", simple_get);
      ("bottles", simple_get); ("max_pressure", simple_get);
      ("parameters", params_get); ("comments", comments_get) ].

(** ** Column slices *)

(** [itertools.groupby] on booleans: the maximal runs of equal values. *)
Fixpoint groupby (l : list bool) : list (bool * list bool) :=
  match l with
  | [] => []
  | x :: l' =>
      match groupby l' with
      | (y, g) :: gs => if Bool.eqb x y then (x, x :: g) :: gs
                        else (x, [x]) :: (y, g) :: gs
      | [] => [(x, [x])]
      end
  end.

Fixpoint slices_from (groups : list (bool * list bool)) (position : nat)
  : list (nat * nat) :=
  match groups with
  | [] => []
  | (value, group) :: groups' =>
      let length := length group in
      (if value then [] else [(position, position + length)%nat])
        ++ slices_from groups' (position + length)
  end.

Definition calculate_slices (space_columns : list bool) : list (nat * nat) :=
  slices_from (groupby space_columns) 0.

(** [[l == " " for l in line]] *)
Definition is_space (line : string) : list bool :=
  map (fun l => Ascii.eqb l " ") (Py.chars line).

(** [[a and b for a, b in zip_longest(x, y, fillvalue=True)]] *)
Fixpoint and_longest (x y : list bool) : list bool :=
  match x, y with
  | a :: x', b :: y' => (a && b) :: and_longest x' y'
  | [], _ => map (fun b => true && b) y
  | _, [] => map (fun a => a && true) x
  end.

(** [[line[slice] for slice in slices]] *)
Definition cut (line : string) (slices : list (nat * nat)) : list string :=
  map (fun '(start, stop) => Py.slice line start stop) slices.

(** ** Duplicate headers *)

Fixpoint counter_add (cnt : list (string * nat)) (h : string) : list (string * nat) :=
  match cnt with
  | [] => [(h, 1%nat)]
  | (k, n) :: cnt' => if String.eqb k h then (k, S n) :: cnt'
                      else (k, n) :: counter_add cnt' h
  end.

(** [Counter(l).items()]: the distinct elements in the order of their
    first occurrence, each with its number of occurrences. *)
Definition Counter (l : list string) : list (string * nat) := foldl counter_add [] l.

(** The loop over [cnt.items()] that raises [ValueError()]. *)
Fixpoint check_counts (items : list (string * nat)) : result unit :=
  match items with
  | [] => Ok tt
  | (header, count) :: items' =>
      if String.eqb header "DEPTH" && negb (count =? 2)%nat then Raise ValueError
      else if negb (String.eqb header "DEPTH") && negb (count =? 1)%nat then Raise ValueError
      else check_counts items'
  end.

(** [a > b] where [a] and [b] are an [int] or [None]: Python 3 refuses to
    order [None]. *)
Definition gt (a b : option nat) : result bool :=
  match a, b with
  | Some x, Some y => Ok (y <? x)%nat
  | _, _ => Raise TypeError
  end.

(** [l.index(x)] raising [ValueError] *)
Definition list_index_exn (l : list string) (x : string) : result nat :=
  match Py.list_index x l with
  | Some i => Ok i
  | None => Raise ValueError
  end.

(** Lines 256 to 274 of [read_sum]. The assignments [headers[i] = "CDEPTH"]
    are at indices found by [index], hence in range. *)
Definition resolve_duplicates (uncorreced_depth corrected_depth : option nat)
    (headers : list string) : result (list string) :=
  if negb (length headers =? size (list_to_set headers : gset string))%nat then
    _ ← check_counts (Counter headers);
    c ← gt corrected_depth uncorreced_depth;
    if c : bool then
      idx ← list_index_exn (rev headers) "DEPTH";
      Ok (<[(length headers - idx - 1)%nat := "CDEPTH"]> headers)
    else
      c' ← gt corrected_depth uncorreced_depth;
      if c' : bool then
        idx ← list_index_exn headers "DEPTH";
        Ok (<[idx := "CDEPTH"]> headers)
      else Ok headers
  else Ok headers.

(** ** The reader *)

Record layout : Type := Layout {
  normalized_headers : list string;
  normalized_empty : gset string;
  column_slices : list (nat * nat);
  body : list string
}.

(** The offsets of the markers of the uncorrected and of the corrected
    depth in the line above the header. *)
Definition depth_markers (preheader : string) : option nat * option nat :=
  let uncorreced_depth := Py.index preheader "UNC" in
  let corrected_depth :=
    match Py.index preheader "COR" with
    | Some c => Some c
    | None => Py.index preheader "XXX"
    end in
  (uncorreced_depth, corrected_depth).

(** [[header[slice] for slice in calculate_slices([l == " " for l in header])]] *)
Definition split_header (header : string) : list string :=
  cut header (calculate_slices (is_space header)).

(** The positions that hold a space, or nothing, in every line of the body. *)
Definition space_columns (first : string) (body : list string) : list bool :=
  foldl (fun sc line => and_longest sc (is_space line)) (is_space first) body.

(** Lines 236 to 287 of [read_sum]: from the three parts of the file to
    the layout that the rows are decoded with. *)
Definition resolve (preheader header : string) (body : list string)
    (empty_cols : list string) : result layout :=
  let '(uncorreced_depth, corrected_depth) := depth_markers preheader in
  let headers := split_header header in
  normalized_empty ← mapM (subscript INVERTED_POSSIBILITIES) empty_cols;
  headers ← resolve_duplicates uncorreced_depth corrected_depth headers;
  normalized_headers ← mapM (subscript INVERTED_POSSIBILITIES) headers;
  first ← Py.getitem body 0;
  let column_slices := calculate_slices (space_columns first body) in
  Ok (Layout normalized_headers (list_to_set normalized_empty) column_slices body).

(** The index of the first line that, stripped, starts with ten dashes. *)
Fixpoint find_separator (lines : list string) (i : nat) : option nat :=
  match lines with
  | [] => None
  | line :: lines' =>
      if Py.startswith (Py.strip line) "----------" then Some i
      else find_separator lines' (S i)
  end.

(** Lines 210 to 287 of [read_sum]. In the [else] branch of the search
    loop, [raise InvalidSumError(...) from e] reads the local [e], which is
    bound only inside the handler of the decoding error: reading it raises
    [UnboundLocalError] before the [raise] statement is executed. *)
Definition prepare (data : string) (empty_cols : list string) : result layout :=
  if negb (Py.is_ascii data) then Raise (InvalidSumError "Sum files must be ASCII")
  else
    let lines := Py.splitlines data in
    match find_separator lines 0 with
    | None => Raise (UnboundLocalError "e")
    | Some i =>
        let preheader_index := (Z.of_nat i - 2)%Z in
        let header_index := (Z.of_nat i - 1)%Z in
        let body_index := (i + 1)%nat in
        preheader ← Py.getitem lines preheader_index;
        header ← Py.getitem lines header_index;
        let body := drop body_index lines in
        resolve preheader header body empty_cols
    end.

(** The loop over [normalized_headers] for one row: [row_data] is the
    dict under construction, [row] the deque of the remaining tokens. The
    deque is returned as the loop leaves it. *)
Fixpoint decode_fields (headers : list string) (empty : gset string)
    (row_data : gmap string value) (row : deque)
  : result (gmap string value * deque) :=
  match headers with
  | [] => Ok (row_data, row)
  | header :: headers' =>
      if bool_decide (header ∈ empty)
      then decode_fields headers' empty (<[header := VNone]> row_data) row
      else
        get ← subscript GETTERS header;
        '(v, row') ← get row;
        decode_fields headers' empty (<[header := v]> row_data) row'
  end.

Definition decode_row (L : layout) (line : string) : result (gmap string value) :=
  fst <$> decode_fields (normalized_headers L) (normalized_empty L) ∅
            (cut line (column_slices L)).

(** What a consumer of the generator observes: the rows in the order they
    are yielded, ended by exhaustion or by an exception. *)
Inductive trace : Type :=
  | Stop
  | Yield (row_data : gmap string value) (rest : trace)
  | Raised (e : exn).

Fixpoint yielded (t : trace) : list (gmap string value) :=
  match t with
  | Yield row_data rest => row_data :: yielded rest
  | _ => []
  end.

Fixpoint raised (t : trace) : option exn :=
  match t with
  | Stop => None
  | Yield _ rest => raised rest
  | Raised e => Some e
  end.

Fixpoint rows (L : layout) (lines : list string) : trace :=
  match lines with
  | [] => Stop
  | line :: lines' =>
      match decode_row L line with
      | Ok row_data => Yield row_data (rows L lines')
      | Raise e => Raised e
      end
  end.

Definition read_sum (data : string) (empty_cols : list string) : trace :=
  match prepare data empty_cols with
  | Ok L => rows L (body L)
  | Raise e => Raised e
  end.

(** * Properties *)

(** ** Sample files *)

Definition NL : string := String (ascii_of_nat 10) "".

(** The text of a file given by its lines, each ended by a line feed. *)
Fixpoint file (lines : list string) : string :=
  match lines with
  | [] => ""
  | line :: lines' => line ++ NL ++ file lines'
  end.

(** ** Characters *)

Ltac by_cases_on_char c :=
  destruct c as [[] [] [] [] [] [] [] []]; vm_compute; try done; try tauto; intuition discriminate.

(** The characters of a parameter list, as the documentation lists them. *)
Definition params_char (c : ascii) : Prop :=
  PyFloat.is_digit c = true \/ c = ","%char \/ c = "-"%char \/ c = " "%char.

Lemma allowed_params_char c : allowed c = true <-> params_char c.
Proof. unfold params_char. by_cases_on_char c. Qed.

Lemma forallb_allowed token :
  forallb allowed (Py.chars token) = true <-> Forall params_char (Py.chars token).
Proof.
  rewrite forallb_forall, Forall_forall.
  split; intros H c Hc.
  - apply allowed_params_char, H. by apply list_elem_of_In.
  - apply allowed_params_char, H. by apply list_elem_of_In.
Qed.

(** ** The parameters getter *)

Lemma params_get_cons (token : string) (rest : deque) :
  params_get (token :: rest) =
    if forallb allowed (Py.chars token) then Ok (VStr token, rest)
    else Ok (VNone, token :: rest).
Proof. unfold params_get. by destruct (forallb allowed (Py.chars token)). Qed.

Lemma params_get_rejects (token : string) (rest : deque) :
  ~ Forall params_char (Py.chars token) ->
  params_get (token :: rest) = Ok (VNone, token :: rest).
Proof.
  intros H. rewrite params_get_cons.
  destruct (forallb allowed (Py.chars token)) eqn:E; [|done].
  by apply forallb_allowed in E.
Qed.

(** C8: [params_get] looks at the first token without removing it; when
    all its characters are digits, commas, hyphens or spaces the token is
    popped and returned, otherwise the result is [None] and the deque is
    left as it was, so that the next getter still finds the token. *)
Theorem params_get_peeks (token : string) (rest : deque) :
  params_get [] = Ok (VNone, []) /\
  (Forall params_char (Py.chars token) ->
     params_get (token :: rest) = Ok (VStr token, rest)) /\
  (~ Forall params_char (Py.chars token) ->
     params_get (token :: rest) = Ok (VNone, token :: rest)) /\
  params_get ("12,-3" :: rest) = Ok (VStr "12,-3", rest) /\
  params_get ("A1" :: rest) = Ok (VNone, "A1" :: rest) /\
  (x ← params_get ("A1" :: rest); comments_get x.2)
    = Ok (VStr (Py.join " " ("A1" :: rest)), "A1" :: rest).
Proof.
  repeat split; try reflexivity.
  - intros H. apply forallb_allowed in H. rewrite params_get_cons. by rewrite H.
  - apply params_get_rejects.
Qed.

Lemma params_get_peeks_witness :
  params_get ("12,-3" :: ["rest"]) = Ok (VStr "12,-3", ["rest"]) /\
  params_get ("A1" :: ["rest"]) = Ok (VNone, "A1" :: ["rest"]).
Proof.
  destruct (params_get_peeks "12,-3" ["rest"]) as (_ & Hyes & _).
  destruct (params_get_peeks "A1" ["rest"]) as (_ & _ & Hno & _).
  split.
  - apply Hyes. apply forallb_allowed. reflexivity.
  - apply Hno. intros H. apply forallb_allowed in H. discriminate H.
Defined.

(** ** The latitude and longitude getter *)

Lemma mul_comm (x y : spec_float) : PyFloat.mul x y = PyFloat.mul y x.
Proof.
  unfold PyFloat.mul, SFmul.
  destruct x as [sx|sx| |sx mx ex], y as [sy|sy| |sy my ey];
    rewrite ?(xorb_comm sx sy); try reflexivity.
  by rewrite (Pos.mul_comm mx my), (Z.add_comm ex ey).
Qed.

Lemma upper_singleton (h l : string) (c : ascii) :
  l = String c "" -> Py.upper h = l -> exists a, h = String a "" /\ Py.upper_char a = c.
Proof.
  intros -> H. destruct h as [|a [|b h]]; try discriminate H.
  exists a. split; [done|]. by injection H.
Qed.

(** A hemisphere letter is not changed by [strip]. *)
Lemma upper_strip_letter (h l : string) :
  l ∈ ["N"; "S"; "E"; "W"] -> Py.upper h = l -> Py.upper (Py.strip h) = l.
Proof.
  intros Hl Hu.
  assert (exists c, l = String c "" /\ c ∈ ["N"; "S"; "E"; "W"]%char) as (c & Hc & Hin).
  { set_unfold. destruct Hl as [->|[->|[->|[->|[]]]]]; eexists; split; try reflexivity; tauto. }
  destruct (upper_singleton h l c Hc Hu) as (a & -> & Ha). subst l.
  set_unfold.
  destruct Hin as [->|[->|[->|[->|[]]]]]; revert Ha; clear; by_cases_on_char a.
Qed.

Lemma hem_lookup (k : string) :
  hem !! k = if bool_decide (k = "N" \/ k = "E") then Some 1%Z
             else if bool_decide (k = "S" \/ k = "W") then Some (-1)%Z
             else None.
Proof.
  unfold hem. rewrite !lookup_insert, lookup_empty.
  repeat case_decide; repeat case_bool_decide; try done; try tauto;
    subst; try discriminate; intuition discriminate.
Qed.

Lemma latlon_get_three (degree minute hemisphere : string) (rest : deque) :
  latlon_get (degree :: minute :: hemisphere :: rest) =
    match PyFloat.of_str (Py.strip degree), PyFloat.of_str (Py.strip minute) with
    | Some d, Some m =>
        sign ← subscript hem (Py.upper (Py.strip hemisphere));
        Ok (VFloat (PyFloat.mul (PyFloat.add d (PyFloat.div m (PyFloat.of_int 60)))
                      (PyFloat.of_int sign)), rest)
    | _, _ => Ok (VNone, rest)
    end.
Proof.
  unfold latlon_get. cbn [popleft mbind result_bind].
  by destruct (PyFloat.of_str (Py.strip degree)), (PyFloat.of_str (Py.strip minute)).
Qed.

Lemma latlon_get_none (degree minute hemisphere : string) (rest : deque) :
  PyFloat.of_str (Py.strip degree) = None \/ PyFloat.of_str (Py.strip minute) = None ->
  latlon_get (degree :: minute :: hemisphere :: rest) = Ok (VNone, rest).
Proof.
  rewrite latlon_get_three.
  intros [->| ->]; [done|]. by destruct (PyFloat.of_str (Py.strip degree)).
Qed.

(** C7: [latlon_get] pops three tokens; when the first two parse as the
    floats [d] and [m] and the third, in upper case, is N or E (sign 1) or
    S or W (sign -1), the value is [sign * (d + m / 60)]; "12", "30.0", "S"
    give -12.5 and "12", "0", "n" give 12.0; when the degree or the minute
    does not parse as a float the value is [None]. *)
Theorem latlon_get_decodes (degree minute hemisphere : string) (rest : deque) :
  (forall v d, latlon_get (degree :: minute :: hemisphere :: rest) = Ok (v, d) -> d = rest) /\
  (forall d m sign,
     PyFloat.of_str (Py.strip degree) = Some d ->
     PyFloat.of_str (Py.strip minute) = Some m ->
     (Py.upper hemisphere ∈ ["N"; "E"] /\ sign = 1%Z) \/
     (Py.upper hemisphere ∈ ["S"; "W"] /\ sign = (-1)%Z) ->
     latlon_get (degree :: minute :: hemisphere :: rest) =
       Ok (VFloat (PyFloat.mul (PyFloat.of_int sign)
                     (PyFloat.add d (PyFloat.div m (PyFloat.of_int 60)))), rest)) /\
  (PyFloat.of_str (Py.strip degree) = None \/ PyFloat.of_str (Py.strip minute) = None ->
     latlon_get (degree :: minute :: hemisphere :: rest) = Ok (VNone, rest)) /\
  latlon_get ("12" :: "30.0" :: "S" :: rest) = Ok (VFloat (PyFloat.dyadic (-25) (-1)), rest) /\
  latlon_get ("12" :: "0" :: "n" :: rest) = Ok (VFloat (PyFloat.of_int 12), rest).
Proof.
  split; [|split; [|split; [apply latlon_get_none|]]];
    rewrite ?latlon_get_three; repeat split; try reflexivity.
  - intros v d.
    destruct (PyFloat.of_str (Py.strip degree)), (PyFloat.of_str (Py.strip minute));
      try (intros [= _ <-]; reflexivity).
    destruct (subscript hem _); cbn; [|discriminate]. by intros [= _ <-].
  - intros d m sign -> -> Hh. rewrite mul_comm.
    assert (Py.upper (Py.strip hemisphere) = Py.upper hemisphere) as ->.
    { apply upper_strip_letter; [|done]. set_unfold. tauto. }
    unfold subscript. rewrite hem_lookup.
    set_unfold. destruct Hh as [[[->|[->|[]]] ->]|[[->|[->|[]]] ->]]; reflexivity.
Qed.

Lemma latlon_get_decodes_witness :
  latlon_get ["12"; "30.0"; "w"; "GPS"] =
    Ok (VFloat (PyFloat.mul (PyFloat.of_int (-1))
                  (PyFloat.add (PyFloat.of_int 12)
                     (PyFloat.div (PyFloat.of_int 30) (PyFloat.of_int 60)))), ["GPS"]) /\
  latlon_get ["1x"; "30.0"; "w"; "GPS"] = Ok (VNone, ["GPS"]).
Proof.
  destruct (latlon_get_decodes "12" "30.0" "w" ["GPS"]) as (_ & Hval & _).
  destruct (latlon_get_decodes "1x" "30.0" "w" ["GPS"]) as (_ & _ & Hnone & _).
  split.
  - apply Hval; [reflexivity|reflexivity|].
    right. split; [|reflexivity]. apply list_elem_of_In. right. left. reflexivity.
  - apply Hnone. left. reflexivity.
Defined.

(** ** Decoding one row *)

Lemma GETTERS_lookup (h : string) (get : getter) :
  GETTERS !! h = Some get ->
  (get = latlon_get /\ h ∈ ["lat"; "lon"]) \/
  (get ∈ [simple_get; params_get; comments_get] /\ h ∉ ["lat"; "lon"]).
Proof.
  intros H. apply elem_of_list_to_map_2 in H.
  repeat (apply elem_of_cons in H as [[= -> ->]|H];
          [set_unfold; first [left; split; [done|tauto] | right; split; [tauto|intuition discriminate]]|]).
  by apply elem_of_nil in H.
Qed.

Lemma GETTERS_latlon (h : string) : h ∈ ["lat"; "lon"] -> GETTERS !! h = Some latlon_get.
Proof. set_unfold. intros [->|[->|[]]]; reflexivity. Qed.

Section decode_fields.
Variable empty : gset string.

Lemma decode_fields_skip h hs rd (q : deque) :
  h ∈ empty ->
  decode_fields (h :: hs) empty rd q = decode_fields hs empty (<[h := VNone]> rd) q.
Proof. intros H. cbn [decode_fields]. by rewrite bool_decide_eq_true_2. Qed.

Lemma decode_fields_get h hs rd (q : deque) get :
  h ∉ empty -> GETTERS !! h = Some get ->
  decode_fields (h :: hs) empty rd q =
    match get q with
    | Ok (v, q') => decode_fields hs empty (<[h := v]> rd) q'
    | Raise x => Raise x
    end.
Proof.
  intros H Hg. cbn [decode_fields]. rewrite bool_decide_eq_false_2 by done.
  unfold subscript. rewrite Hg. cbn [mbind result_bind].
  by destruct (get q) as [[v q']|x].
Qed.

Lemma decode_fields_app pre post rd (q : deque) :
  decode_fields (pre ++ post) empty rd q =
    ('(rd1, q1) ← decode_fields pre empty rd q; decode_fields post empty rd1 q1).
Proof.
  revert rd q. induction pre as [|h pre IH]; intros rd q; [done|].
  cbn [app decode_fields]. case_bool_decide; [apply IH|].
  destruct (subscript GETTERS h) as [get|x]; [|done].
  cbn [mbind result_bind]. destruct (get q) as [[v q']|x]; [apply IH|done].
Qed.

(** The keys of a decoded row are those it started with and all the
    headers, whatever the tokens were. *)
Lemma decode_fields_dom hs rd (q : deque) r q' :
  decode_fields hs empty rd q = Ok (r, q') ->
  dom r = dom rd ∪ list_to_set hs.
Proof.
  revert rd q. induction hs as [|h hs IH]; intros rd q.
  - intros [= <- _]. set_solver.
  - cbn [decode_fields]. case_bool_decide.
    + intros Hr%IH. rewrite Hr, dom_insert_L. set_solver.
    + destruct (subscript GETTERS h) as [get|x]; [|done].
      cbn [mbind result_bind]. destruct (get q) as [[v q1]|x]; [|done].
      intros Hr%IH. rewrite Hr, dom_insert_L. set_solver.
Qed.

(** A header declared empty is recorded as [None]. *)
Lemma decode_fields_declared_empty hs rd (q : deque) r q' h :
  decode_fields hs empty rd q = Ok (r, q') -> h ∈ empty ->
  r !! h = if bool_decide (h ∈ hs) then Some VNone else rd !! h.
Proof.
  intros Hr Hh. revert rd q Hr. induction hs as [|k hs IH]; intros rd q.
  - intros [= <- _]. by rewrite bool_decide_eq_false_2 by set_solver.
  - destruct (decide (k ∈ empty)) as [Hk|Hk].
    + rewrite decode_fields_skip by done. intros ->%IH.
      destruct (decide (h = k)) as [->|Hne].
      * rewrite (bool_decide_eq_true_2 (k ∈ k :: hs)) by set_solver.
        destruct (bool_decide (k ∈ hs)); [done|]. by rewrite lookup_insert_eq.
      * rewrite lookup_insert_ne by done.
        destruct (decide (h ∈ hs)) as [Hin|Hin].
        -- by rewrite !bool_decide_eq_true_2 by set_solver.
        -- by rewrite !bool_decide_eq_false_2 by set_solver.
    + assert (h <> k) as Hne by (intros ->; done).
      cbn [decode_fields]. rewrite (bool_decide_eq_false_2 (k ∈ empty)) by done.
      destruct (subscript GETTERS k) as [get|x]; [|done].
      cbn [mbind result_bind]. destruct (get q) as [[v q1]|x]; [|done].
      intros ->%IH. rewrite lookup_insert_ne by done.
      destruct (decide (h ∈ hs)) as [Hin|Hin].
      * by rewrite !bool_decide_eq_true_2 by set_solver.
      * by rewrite !bool_decide_eq_false_2 by set_solver.
Qed.

(** Only the getter of the latitude and of the longitude can raise. *)
Lemma decode_fields_total hs rd (q : deque) :
  Forall (fun h => h ∈ empty \/ (is_Some (GETTERS !! h) /\ h ∉ ["lat"; "lon"])) hs ->
  exists r q', decode_fields hs empty rd q = Ok (r, q').
Proof.
  intros H. revert rd q. induction H as [|h hs Hh _ IH]; intros rd q; [by eexists _, _|].
  destruct (decide (h ∈ empty)) as [He|He].
  - rewrite decode_fields_skip by done. apply IH.
  - destruct Hh as [?|[[get Hg] Hn]]; [done|].
    rewrite (decode_fields_get _ _ _ _ get) by done.
    destruct (GETTERS_lookup _ _ Hg) as [[_ ?]|[Hin _]]; [done|].
    set_unfold. destruct Hin as [->|[->|[->|[]]]].
    + destruct q; apply IH.
    + unfold params_get. destruct q as [|t q]; [apply IH|].
      destruct (forallb allowed (Py.chars t)); apply IH.
    + apply IH.
Qed.
End decode_fields.

Lemma yielded_rows (L : layout) (lines : list string) (row_data : gmap string value) :
  row_data ∈ yielded (rows L lines) ->
  exists line, line ∈ lines /\ decode_row L line = Ok row_data.
Proof.
  induction lines as [|line lines IH]; cbn [rows yielded]; [by intros ?%elem_of_nil|].
  destruct (decode_row L line) as [r|x] eqn:E; cbn [yielded]; [|by intros ?%elem_of_nil].
  intros [->|H]%elem_of_cons.
  - exists line. split; [left|done].
  - destruct (IH H) as (l & ? & ?). exists l. split; [by right|done].
Qed.

Lemma decode_row_dom (L : layout) (line : string) (row_data : gmap string value) :
  decode_row L line = Ok row_data ->
  dom row_data = list_to_set (normalized_headers L).
Proof.
  unfold decode_row.
  destruct (decode_fields _ _ _ _) as [[r q]|x] eqn:E; [|done].
  intros [= <-]. apply decode_fields_dom in E. set_solver.
Qed.

(** C9: every row that [read_sum] yields has the normalized headers of
    the layout as its set of keys, whatever the line held; a header that
    the caller declared empty is present with the value [None]. *)
Theorem yielded_rows_keys (data : string) (empty_cols : list string)
    (row_data : gmap string value) :
  row_data ∈ yielded (read_sum data empty_cols) ->
  exists L, prepare data empty_cols = Ok L /\
    dom row_data = list_to_set (normalized_headers L) /\
    forall h, h ∈ normalized_headers L -> h ∈ normalized_empty L ->
              row_data !! h = Some VNone.
Proof.
  unfold read_sum. destruct (prepare data empty_cols) as [L|x]; [|by intros ?%elem_of_nil].
  intros (line & _ & Hrow)%yielded_rows. exists L. split; [done|].
  split; [by eapply decode_row_dom|].
  intros h Hh He. unfold decode_row in Hrow.
  destruct (decode_fields _ _ _ _) as [[r q]|x] eqn:E; [|done].
  injection Hrow as <-.
  rewrite (decode_fields_declared_empty _ _ _ _ _ _ h E He).
  by rewrite bool_decide_eq_true_2.
Qed.

Definition sample_rows : string :=
  file [ "";
         "STNNBR CASTNO LATITUDE";
         "----------------------";
         "001  002  1x 30.0 N" ].

Definition sample_row_data : gmap string value :=
  <["lat" := VNone]> (<["castno" := VNone]> (<["stnnbr" := VStr "001"]> ∅)).

Lemma yielded_rows_keys_witness :
  exists L, prepare sample_rows ["CASTNO"] = Ok L /\
    dom sample_row_data = list_to_set (normalized_headers L) /\
    forall h, h ∈ normalized_headers L -> h ∈ normalized_empty L ->
              sample_row_data !! h = Some VNone.
Proof.
  apply (yielded_rows_keys sample_rows ["CASTNO"] sample_row_data).
  assert (yielded (read_sum sample_rows ["CASTNO"]) = [sample_row_data]) as ->
    by (vm_compute; reflexivity).
  apply list_elem_of_In. left. reflexivity.
Defined.

(** ** Comments before other fields *)

Lemma append_nil_r (s : string) : (s ++ "")%string = s.
Proof.
  induction s as [|c s IH]; [reflexivity|].
  change (String c (s ++ "") = String c s). by rewrite IH.
Qed.

Lemma append_assoc (a b c : string) : ((a ++ b) ++ c)%string = (a ++ b ++ c)%string.
Proof.
  induction a as [|x a IH]; [reflexivity|].
  change (String x ((a ++ b) ++ c) = String x (a ++ b ++ c)). by rewrite IH.
Qed.

Lemma join_contains (sep token : string) (d : deque) :
  token ∈ d -> exists a b, Py.join sep d = (a ++ token ++ b)%string.
Proof.
  induction d as [|x d IH]; [by intros ?%elem_of_nil|].
  intros [->|H]%elem_of_cons.
  - destruct d as [|y d].
    + exists "", "". symmetry. apply append_nil_r.
    + exists "", (sep ++ Py.join sep (y :: d))%string. reflexivity.
  - destruct (IH H) as (a & b & E). destruct d as [|y d]; [by apply elem_of_nil in H|].
    exists (x ++ sep ++ a)%string, b.
    change (Py.join sep (x :: y :: d)) with (x ++ sep ++ Py.join sep (y :: d))%string.
    by rewrite E, !append_assoc.
Qed.

(** C10, as the code has it: [comments_get] returns the tokens of the
    deque joined by single spaces and leaves the deque as it is; so when
    other headers follow "comments", every token that was in the deque is
    part of the comments string and is still in the deque, and the getters
    of the headers that follow start again from the first of these tokens,
    removing as many of them as they pop. *)
Theorem comments_get_keeps_tokens (pre post : list string) (empty : gset string)
    (rd : gmap string value) (q : deque) :
  "comments" ∉ empty ->
  (forall d, comments_get d = Ok (VStr (Py.join " " d), d)) /\
  (forall d token, token ∈ d -> exists a b, Py.join " " d = (a ++ token ++ b)%string) /\
  decode_fields (pre ++ "comments" :: post) empty rd q =
    ('(rd1, q1) ← decode_fields pre empty rd q;
     decode_fields post empty (<["comments" := VStr (Py.join " " q1)]> rd1) q1).
Proof.
  intros He. split; [done|]. split; [intros d token; apply join_contains|].
  rewrite decode_fields_app.
  destruct (decode_fields pre empty rd q) as [[rd1 q1]|x]; [|done].
  cbn [mbind result_bind].
  by rewrite (decode_fields_get empty "comments" post rd1 q1 comments_get).
Qed.

Lemma comments_get_keeps_tokens_witness :
  decode_fields (["stnnbr"] ++ "comments" :: ["castno"]) ∅ ∅ ["001"; "bad"; "weather"] =
    ('(rd1, q1) ← decode_fields ["stnnbr"] ∅ ∅ ["001"; "bad"; "weather"];
     decode_fields ["castno"] ∅ (<["comments" := VStr (Py.join " " q1)]> rd1) q1).
Proof.
  apply (comments_get_keeps_tokens ["stnnbr"] ["castno"] ∅ ∅ ["001"; "bad"; "weather"]).
  apply not_elem_of_empty.
Defined.

(** C10, as stated, fails: with the headers stnnbr, comments, castno and
    the tokens "001", "bad", "weather", the token "weather" is part of the
    comments but no getter after the comments removes it from the deque. *)
Lemma comments_tokens_not_all_consumed :
  exists row_data,
    decode_fields ["stnnbr"; "comments"; "castno"] ∅ ∅ ["001"; "bad"; "weather"]
      = Ok (row_data, ["weather"]) /\
    row_data !! "comments" = Some (VStr "bad weather") /\
    row_data !! "castno" = Some (VStr "bad").
Proof.
  eexists. split; [vm_compute; reflexivity|]. split; vm_compute; reflexivity.
Qed.

(** ** Anomalies in one row *)

Lemma rows_cons (L : layout) (line : string) (lines : list string) :
  rows L (line :: lines) =
    match decode_row L line with
    | Ok row_data => Yield row_data (rows L lines)
    | Raise e => Raised e
    end.
Proof. reflexivity. Qed.

(** C2, as the code has it: for a header that is not declared empty, a
    degree or a minute that does not parse as a float makes the latitude
    or longitude [None], and a token with a character outside digits,
    commas, hyphens and spaces makes the parameters [None] (the token
    stays in the deque); in both cases the loop goes on with the next
    headers, and a row that is decoded is yielded, with all its keys,
    before the next line is decoded. A hemisphere other than N, S, E, W
    after a degree and a minute that parse raises [KeyError], which ends
    the sequence of rows at that line. *)
Theorem decode_anomalies (h : string) (hs : list string) (empty : gset string)
    (rd : gmap string value) (q : deque) :
  h ∉ empty ->
  (forall degree minute hemisphere rest,
     h ∈ ["lat"; "lon"] -> q = degree :: minute :: hemisphere :: rest ->
     PyFloat.of_str (Py.strip degree) = None \/ PyFloat.of_str (Py.strip minute) = None ->
     decode_fields (h :: hs) empty rd q = decode_fields hs empty (<[h := VNone]> rd) rest) /\
  (forall token rest,
     h = "parameters" -> q = token :: rest -> ~ Forall params_char (Py.chars token) ->
     decode_fields (h :: hs) empty rd q = decode_fields hs empty (<[h := VNone]> rd) q) /\
  (forall degree minute hemisphere rest,
     h ∈ ["lat"; "lon"] -> q = degree :: minute :: hemisphere :: rest ->
     is_Some (PyFloat.of_str (Py.strip degree)) ->
     is_Some (PyFloat.of_str (Py.strip minute)) ->
     Py.upper (Py.strip hemisphere) ∉ ["N"; "S"; "E"; "W"] ->
     decode_fields (h :: hs) empty rd q = Raise (KeyError (Py.upper (Py.strip hemisphere)))) /\
  (forall L line lines,
     match decode_row L line with
     | Ok row_data => rows L (line :: lines) = Yield row_data (rows L lines) /\
                      dom row_data = list_to_set (normalized_headers L)
     | Raise e => rows L (line :: lines) = Raised e
     end).
Proof.
  intros He. repeat split.
  - intros degree minute hemisphere rest Hh -> Hf.
    rewrite (decode_fields_get empty h hs rd _ latlon_get He (GETTERS_latlon h Hh)).
    by rewrite (latlon_get_none degree minute hemisphere rest Hf).
  - intros token rest -> -> Hc.
    rewrite (decode_fields_get empty "parameters" hs rd _ params_get He eq_refl).
    by rewrite (params_get_rejects token rest Hc).
  - intros degree minute hemisphere rest Hh -> [d Hd] [m Hm] Hk.
    rewrite (decode_fields_get empty h hs rd _ latlon_get He (GETTERS_latlon h Hh)).
    rewrite latlon_get_three, Hd, Hm. unfold subscript. rewrite hem_lookup.
    rewrite !bool_decide_eq_false_2; [done| |]; set_solver.
  - intros L line lines. rewrite rows_cons.
    destruct (decode_row L line) as [r|x] eqn:E; [|done].
    split; [done|]. by eapply decode_row_dom.
Qed.

Lemma decode_anomalies_witness :
  decode_fields ("lat" :: ["nav"]) ∅ ∅ ["1x"; "30.0"; "N"; "GPS"] =
    decode_fields ["nav"] ∅ (<["lat" := VNone]> ∅) ["GPS"] /\
  decode_fields ("lat" :: ["nav"]) ∅ ∅ ["12"; "30.0"; "X"; "GPS"] = Raise (KeyError "X").
Proof.
  destruct (decode_anomalies "lat" ["nav"] ∅ ∅ ["1x"; "30.0"; "N"; "GPS"]
              (not_elem_of_empty _)) as (Hnone & _).
  destruct (decode_anomalies "lat" ["nav"] ∅ ∅ ["12"; "30.0"; "X"; "GPS"]
              (not_elem_of_empty _)) as (_ & _ & Hkey & _).
  split.
  - apply (Hnone "1x" "30.0" "N" ["GPS"]);
      [apply list_elem_of_In; left; reflexivity | reflexivity | left; reflexivity].
  - apply (Hkey "12" "30.0" "X" ["GPS"]);
      [apply list_elem_of_In; left; reflexivity | reflexivity
      | eexists; reflexivity | eexists; reflexivity |].
    intros H. apply list_elem_of_In in H. vm_compute in H.
    destruct H as [H|[H|[H|[H|[]]]]]; discriminate H.
Defined.

Definition sample_unknown_hemisphere : string :=
  file [ "";
         "STNNBR CASTNO LATITUDE";
         "----------------------";
         "001  002  12 30.0 X";
         "001  003  12 30.0 N" ].

(** C2, as stated, fails: a hemisphere "X" after a degree and a minute
    that parse raises [KeyError], no row is yielded for the line and the
    line after it is never decoded. *)
Lemma unknown_hemisphere_escapes :
  read_sum sample_unknown_hemisphere [] = Raised (KeyError "X").
Proof. vm_compute. reflexivity. Qed.

(** ** Layouts *)

Lemma mapM_Forall2 {A B} (f : A -> result B) (l : list A) (ys : list B) :
  mapM f l = Ok ys -> Forall2 (fun x y => f x = Ok y) l ys.
Proof.
  revert ys. induction l as [|x l IH]; intros ys; cbn [mapM].
  - intros [= <-]. constructor.
  - destruct (f x) as [y|e] eqn:E; [|done]. cbn [mbind result_bind].
    destruct (mapM f l) as [ys'|e]; [|done]. intros [= <-].
    constructor; [done|]. by apply IH.
Qed.

Lemma invert_values (key : string) (values : list string) (inv : gmap string string) k v :
  foldl (fun inv value => <[value := key]> inv) inv values !! k = Some v ->
  v = key \/ inv !! k = Some v.
Proof.
  revert inv. induction values as [|x values IH]; intros inv; cbn [foldl]; [by right|].
  intros [->|H]%IH; [by left|].
  rewrite lookup_insert in H. case_decide; [left; congruence|by right].
Qed.

Lemma invert_table (P : list (string * list string)) (inv : gmap string string) k v :
  foldl (fun inv '(key, values) =>
           foldl (fun inv value => <[value := key]> inv) inv values) inv P !! k = Some v ->
  v ∈ P.*1 \/ inv !! k = Some v.
Proof.
  revert inv. induction P as [|[key values] P IH]; intros inv; cbn [foldl]; [by right|].
  intros [H|H]%IH; [left; by right|].
  apply invert_values in H as [->|H]; [left; by left|by right].
Qed.

(** The alias table maps every spelling to one of the 19 field names. *)
Lemma INVERTED_POSSIBILITIES_values (k v : string) :
  INVERTED_POSSIBILITIES !! k = Some v -> v ∈ POSSIBILITIES.*1.
Proof. intros [H|H]%invert_table; [done|]. by rewrite lookup_empty in H. Qed.

Lemma GETTERS_canonical (v : string) : v ∈ POSSIBILITIES.*1 -> is_Some (GETTERS !! v).
Proof.
  intros H. cbn in H.
  repeat (apply elem_of_cons in H as [->|H]; [by eexists|]).
  by apply elem_of_nil in H.
Qed.

Lemma resolve_Ok (preheader header : string) (body0 empty_cols : list string) (L : layout) :
  resolve preheader header body0 empty_cols = Ok L ->
  exists ne hs first,
    mapM (subscript INVERTED_POSSIBILITIES) empty_cols = Ok ne /\
    resolve_duplicates (depth_markers preheader).1 (depth_markers preheader).2
      (split_header header) = Ok hs /\
    mapM (subscript INVERTED_POSSIBILITIES) hs = Ok (normalized_headers L) /\
    body0 !! 0%nat = Some first /\
    L = Layout (normalized_headers L) (list_to_set ne)
               (calculate_slices (space_columns first body0)) body0.
Proof.
  unfold resolve. destruct (depth_markers preheader) as [u c]. cbn [fst snd].
  destruct (mapM _ empty_cols) as [ne|e] eqn:Ene; [|done]. cbn [mbind result_bind].
  destruct (resolve_duplicates u c _) as [hs|e] eqn:Ehs; [|done]. cbn [mbind result_bind].
  destruct (mapM _ hs) as [nh|e] eqn:Enh; [|done]. cbn [mbind result_bind].
  destruct body0 as [|first body0]; [done|].
  intros [= <-]. exists ne, hs, first. by repeat split.
Qed.

Lemma prepare_Ok (data : string) (empty_cols : list string) (L : layout) :
  prepare data empty_cols = Ok L ->
  Py.is_ascii data = true /\
  exists i preheader header,
    find_separator (Py.splitlines data) 0 = Some i /\
    Py.getitem (Py.splitlines data) (Z.of_nat i - 2) = Ok preheader /\
    Py.getitem (Py.splitlines data) (Z.of_nat i - 1) = Ok header /\
    resolve preheader header (drop (i + 1) (Py.splitlines data)) empty_cols = Ok L.
Proof.
  unfold prepare. destruct (Py.is_ascii data); [|done]. cbn [negb].
  destruct (find_separator _ 0) as [i|]; [|done].
  destruct (Py.getitem _ (Z.of_nat i - 2)) as [preheader|e] eqn:Ep; [|done].
  destruct (Py.getitem _ (Z.of_nat i - 1)) as [header|e] eqn:Eh; [|done].
  cbn [mbind result_bind]. intros H. split; [done|]. by exists i, preheader, header.
Qed.

Lemma prepare_headers (data : string) (empty_cols : list string) (L : layout) :
  prepare data empty_cols = Ok L ->
  Forall (fun h => is_Some (GETTERS !! h)) (normalized_headers L).
Proof.
  intros (_ & i & p & h & _ & _ & _ & H)%prepare_Ok.
  apply resolve_Ok in H as (ne & hs & first & _ & _ & H & _).
  apply mapM_Forall2 in H. apply Forall_forall. intros v Hv.
  apply list_elem_of_lookup in Hv as [j Hj].
  eapply Forall2_lookup_r in H as (k & _ & Hk); [|done].
  unfold subscript in Hk. destruct (INVERTED_POSSIBILITIES !! k) as [v'|] eqn:E; [|done].
  injection Hk as ->. by eapply GETTERS_canonical, INVERTED_POSSIBILITIES_values.
Qed.

(** ** Column slices against field names *)

Lemma rows_total (L : layout) (lines : list string) :
  (forall line, exists row_data, decode_row L line = Ok row_data) ->
  raised (rows L lines) = None /\ length (yielded (rows L lines)) = length lines.
Proof.
  intros H. induction lines as [|line lines [IH1 IH2]]; [done|].
  rewrite rows_cons. destruct (H line) as [r ->]. cbn [raised yielded length].
  by rewrite IH2.
Qed.

(** C1, as the code has it: [read_sum] never compares the number of
    column slices with the number of normalized headers. Whenever the
    layout is resolved and no latitude or longitude is to be decoded, one
    row is yielded for every line of the body and nothing is raised,
    whatever the two numbers are. *)
Theorem no_column_count_check (data : string) (empty_cols : list string) (L : layout) :
  prepare data empty_cols = Ok L ->
  (forall h, h ∈ normalized_headers L -> h ∉ normalized_empty L -> h ∉ ["lat"; "lon"]) ->
  raised (read_sum data empty_cols) = None /\
  length (yielded (read_sum data empty_cols)) = length (body L).
Proof.
  intros HL Hh. unfold read_sum. rewrite HL. apply rows_total.
  intros line. unfold decode_row.
  destruct (decode_fields_total (normalized_empty L) (normalized_headers L) ∅
              (cut line (column_slices L))) as (r & q' & ->); [|by exists r].
  pose proof (prepare_headers _ _ _ HL) as Hg.
  rewrite Forall_forall in Hg. apply Forall_forall. intros h Hin.
  destruct (decide (h ∈ normalized_empty L)); [by left|right].
  split; [by apply Hg|by apply Hh].
Qed.

Definition sample_two_slices : string :=
  file [ "";
         "EXPOCODE";
         "----------";
         "33RR20160208 extra" ].

Lemma no_column_count_check_witness :
  raised (read_sum sample_two_slices []) = None /\
  length (yielded (read_sum sample_two_slices [])) = 1%nat.
Proof.
  refine (no_column_count_check sample_two_slices []
            (Layout ["expocode"] ∅ [(0, 12); (13, 18)]%nat ["33RR20160208 extra"]) _ _).
  - vm_compute. reflexivity.
  - intros h Hin _ Hl. cbn [normalized_headers] in Hin.
    apply list_elem_of_In in Hin. apply list_elem_of_In in Hl.
    destruct Hin as [<-|[]]. destruct Hl as [Hl|[Hl|[]]]; discriminate Hl.
Defined.

Definition sample_scenario : string :=
  file [ "";
         "STNNBR CASTNO LATITUDE";
         "----------------------";
         "001  002  12 30.0 N" ].

(** C1, as stated, fails: three field names against five column slices,
    and the row is yielded. *)
Lemma rows_despite_count_mismatch :
  exists L row_data,
    prepare sample_scenario [] = Ok L /\
    length (normalized_headers L) = 3%nat /\
    length (column_slices L) = 5%nat /\
    read_sum sample_scenario [] = Yield row_data Stop /\
    row_data !! "stnnbr" = Some (VStr "001") /\
    row_data !! "castno" = Some (VStr "002") /\
    row_data !! "lat" = Some (VFloat (PyFloat.dyadic 25 (-1))).
Proof.
  eexists _, _. split; [vm_compute; reflexivity|].
  repeat split; vm_compute; reflexivity.
Qed.

(** ** An empty body *)

Lemma resolve_empty_body (preheader header : string) (empty_cols : list string) :
  exists e, resolve preheader header [] empty_cols = Raise e.
Proof.
  unfold resolve. destruct (depth_markers preheader) as [u c].
  destruct (mapM _ empty_cols) as [ne|e]; [|by eexists]. cbn [mbind result_bind].
  destruct (resolve_duplicates u c _) as [hs|e]; [|by eexists]. cbn [mbind result_bind].
  destruct (mapM _ hs) as [nh|e]; [|by eexists]. by eexists.
Qed.

Definition sample_empty_body : string :=
  file [ "SHIP/CRS       WOCE               CAST         UTC";
         "EXPOCODE       SECT STNNBR CASTNO TYPE DATE   TIME";
         "--------------------------------------------------" ].

(** C3, against the code: when no line follows the separator, [read_sum]
    yields no empty sequence but raises; on a header of known columns
    with nothing below the separator, the exception is the [IndexError]
    of [body[0]]. *)
Theorem empty_body_raises (data : string) (empty_cols : list string) (i : nat) :
  find_separator (Py.splitlines data) 0 = Some i ->
  drop (i + 1) (Py.splitlines data) = [] ->
  (exists e, read_sum data empty_cols = Raised e) /\
  read_sum sample_empty_body [] = Raised IndexError.
Proof.
  intros Hi Hb. split; [|vm_compute; reflexivity].
  unfold read_sum, prepare. rewrite Hi, Hb.
  destruct (Py.is_ascii data); [|by eexists]. cbn [negb].
  destruct (Py.getitem _ (Z.of_nat i - 2)) as [preheader|e]; [|by eexists].
  destruct (Py.getitem _ (Z.of_nat i - 1)) as [header|e]; [|by eexists].
  cbn [mbind result_bind].
  destruct (resolve_empty_body preheader header empty_cols) as [e ->]. by eexists.
Qed.

Lemma empty_body_raises_witness :
  (exists e, read_sum sample_empty_body [] = Raised e) /\
  read_sum sample_empty_body [] = Raised IndexError.
Proof.
  apply (empty_body_raises sample_empty_body [] 2); vm_compute; reflexivity.
Defined.

(** * Further properties of the reader *)

(** ** Duplicate headers *)

(** The number of occurrences of [h] in [l]. *)
Definition occurrences (h : string) (l : list string) : nat :=
  length (filter (fun x => x = h) l).

Lemma occurrences_cons (h x : string) (l : list string) :
  occurrences h (x :: l) = ((if decide (x = h) then 1 else 0) + occurrences h l)%nat.
Proof. unfold occurrences. rewrite filter_cons. by case_decide. Qed.

Lemma occurrences_app (h : string) (l1 l2 : list string) :
  occurrences h (l1 ++ l2) = (occurrences h l1 + occurrences h l2)%nat.
Proof. unfold occurrences. by rewrite filter_app, length_app. Qed.

Lemma occurrences_none (h : string) (l : list string) :
  h ∉ l <-> occurrences h l = 0%nat.
Proof.
  induction l as [|x l IH]; [split; [done|intros _; apply not_elem_of_nil]|].
  rewrite occurrences_cons, not_elem_of_cons. case_decide; [|naive_solver lia].
  split; [naive_solver|lia].
Qed.

Lemma occurrences_NoDup (h : string) (l : list string) :
  NoDup l -> h ∈ l -> occurrences h l = 1%nat.
Proof.
  induction 1 as [|x l Hx _ IH]; [by intros ?%elem_of_nil|].
  rewrite occurrences_cons. intros [->|Hin]%elem_of_cons.
  - rewrite decide_True by done. apply occurrences_none in Hx. lia.
  - rewrite decide_False by (intros ->; done). by apply IH.
Qed.

Lemma size_list_to_set_le (l : list string) :
  (size (list_to_set l : gset string) <= length l)%nat.
Proof.
  induction l as [|x l IH]; [done|]. cbn [list_to_set length].
  rewrite size_union_alt, size_singleton.
  assert (size ((list_to_set l : gset string) ∖ {[x]}) <= size (list_to_set l : gset string))%nat
    by (apply subseteq_size; set_solver).
  lia.
Qed.

(** [len(headers) != len(set(headers))] tells whether a label is repeated. *)
Lemma length_set_NoDup (l : list string) :
  length l = size (list_to_set l : gset string) <-> NoDup l.
Proof.
  split; [|intros H; by rewrite size_list_to_set].
  induction l as [|x l IH]; [constructor|]. cbn [list_to_set length]. intros H.
  pose proof (size_list_to_set_le l) as Hle.
  destruct (decide (x ∈ l)) as [Hin|Hin].
  - assert ({[x]} ∪ list_to_set l = (list_to_set l : gset string)) as E by set_solver.
    rewrite E in H. lia.
  - rewrite size_union, size_singleton in H by set_solver.
    constructor; [done|]. apply IH. lia.
Qed.

(** The count that [Counter] holds for a key, 0 when the key is absent. *)
Fixpoint counted (cnt : list (string * nat)) (k : string) : nat :=
  match cnt with
  | [] => 0
  | (k', n) :: cnt' => if decide (k' = k) then n else counted cnt' k
  end.

Lemma counted_counter_add (cnt : list (string * nat)) (h k : string) :
  counted (counter_add cnt h) k =
    ((if decide (h = k) then 1 else 0) + counted cnt k)%nat.
Proof.
  induction cnt as [|[k' n] cnt IH]; cbn [counter_add counted].
  - case_decide; lia.
  - destruct (String.eqb_spec k' h) as [->|Hne]; cbn [counted].
    + repeat case_decide; lia.
    + rewrite IH. repeat case_decide; try lia. congruence.
Qed.

Lemma counted_foldl (l : list string) (cnt : list (string * nat)) (k : string) :
  counted (foldl counter_add cnt l) k = (counted cnt k + occurrences k l)%nat.
Proof.
  revert cnt. induction l as [|h l IH]; intros cnt; cbn [foldl].
  - unfold occurrences. cbn. lia.
  - rewrite IH, counted_counter_add, occurrences_cons. lia.
Qed.

(** The items of a [Counter] have distinct keys and positive counts. *)
Definition counter_wf (cnt : list (string * nat)) : Prop :=
  NoDup cnt.*1 /\ Forall (fun kn => (0 < kn.2)%nat) cnt.

Lemma counter_add_keys (cnt : list (string * nat)) (h k : string) :
  k ∈ (counter_add cnt h).*1 <-> k = h \/ k ∈ cnt.*1.
Proof.
  induction cnt as [|[k' n] cnt IH]; cbn [counter_add].
  - set_solver.
  - destruct (String.eqb_spec k' h) as [->|Hne]; cbn [fmap list_fmap fst]; set_solver.
Qed.

Lemma counter_add_wf (cnt : list (string * nat)) (h : string) :
  counter_wf cnt -> counter_wf (counter_add cnt h).
Proof.
  intros [Hk Hn]. induction cnt as [|[k' n] cnt IH]; cbn [counter_add].
  - split; [apply NoDup_singleton|repeat constructor].
  - apply NoDup_cons in Hk as [Hk' Hk]. apply Forall_cons in Hn as [Hn' Hn].
    destruct (IH Hk Hn) as [IHk IHn].
    destruct (String.eqb_spec k' h) as [->|Hne].
    + split; [by apply NoDup_cons|]. constructor; [cbn; lia|done].
    + split.
      * cbn [fmap list_fmap fst]. apply NoDup_cons. split; [|done].
        rewrite counter_add_keys. naive_solver.
      * by constructor.
Qed.

Lemma Counter_wf (l : list string) : counter_wf (Counter l).
Proof.
  unfold Counter. assert (counter_wf []) as H by (split; constructor).
  revert H. generalize (@nil (string * nat)).
  induction l as [|h l IH]; intros cnt H; [done|]. by apply IH, counter_add_wf.
Qed.

Lemma counted_elem_of (cnt : list (string * nat)) (k : string) (n : nat) :
  counter_wf cnt -> ((k, n) ∈ cnt <-> (0 < n)%nat /\ counted cnt k = n).
Proof.
  intros [Hk Hn]. induction cnt as [|[k' n'] cnt IH]; cbn [counted].
  - split; [by intros ?%elem_of_nil|lia].
  - apply NoDup_cons in Hk as [Hk' Hk]. apply Forall_cons in Hn as [Hn' Hn].
    cbn in Hn'. specialize (IH Hk Hn). rewrite elem_of_cons, IH. case_decide as E.
    + subst k'. split; [intros [Heq|[Hpos Hc]]|intros [? <-]; by left].
      * by simplify_eq.
      * exfalso. apply Hk'. apply list_elem_of_fmap. exists (k, n).
        split; [done|]. by apply IH.
    + split; [intros [Heq|?]; [by simplify_eq|done]|tauto].
Qed.

(** The items of [Counter(l)] are the elements of [l], each with its
    number of occurrences. *)
Lemma Counter_items (l : list string) (k : string) (n : nat) :
  (k, n) ∈ Counter l <-> k ∈ l /\ n = occurrences k l.
Proof.
  rewrite (counted_elem_of _ _ _ (Counter_wf l)). unfold Counter.
  rewrite counted_foldl. cbn [counted].
  destruct (decide (k ∈ l)) as [Hin|Hin].
  - assert (occurrences k l <> 0)%nat by (by intros ?%occurrences_none). naive_solver lia.
  - pose proof (proj1 (occurrences_none k l) Hin). naive_solver lia.
Qed.

Lemma check_counts_cases (items : list (string * nat)) :
  (check_counts items = Ok tt /\
     Forall (fun kn => kn.2 = if decide (kn.1 = "DEPTH") then 2 else 1)%nat items) \/
  (check_counts items = Raise ValueError /\
     Exists (fun kn => kn.2 <> if decide (kn.1 = "DEPTH") then 2 else 1)%nat items).
Proof.
  induction items as [|[k n] items IH]; [left; by split|]. cbn [check_counts].
  destruct (String.eqb_spec k "DEPTH") as [->|Hne]; cbn [andb negb].
  - destruct (Nat.eqb_spec n 2) as [->|Hn]; cbn [negb].
    + destruct IH as [[-> IH]|[-> IH]]; [left|right]; split; try done.
      * by constructor.
      * by apply Exists_cons_tl.
    + right. split; [done|]. apply Exists_cons_hd. cbn. by rewrite decide_True.
  - destruct (Nat.eqb_spec n 1) as [->|Hn]; cbn [negb].
    + destruct IH as [[-> IH]|[-> IH]]; [left|right]; split; try done.
      * constructor; [cbn; by rewrite decide_False|done].
      * by apply Exists_cons_tl.
    + right. split; [done|]. apply Exists_cons_hd. cbn. by rewrite decide_False.
Qed.

(** The only repetition that passes the check: "DEPTH" twice and every
    other label once. *)
Definition depth_twice (headers : list string) : Prop :=
  forall k, k ∈ headers -> occurrences k headers = if decide (k = "DEPTH") then 2%nat else 1%nat.

Lemma check_counts_Counter (headers : list string) :
  (check_counts (Counter headers) = Ok tt /\ depth_twice headers) \/
  (check_counts (Counter headers) = Raise ValueError /\ ~ depth_twice headers).
Proof.
  destruct (check_counts_cases (Counter headers)) as [[-> H]|[-> H]]; [left|right];
    (split; [done|]).
  - intros k Hk. rewrite Forall_forall in H.
    apply (H (k, occurrences k headers)). by apply Counter_items.
  - apply Exists_exists in H as ([k n] & Hin & Hbad). apply Counter_items in Hin as [Hin ->].
    intros Hd. by apply Hbad, Hd.
Qed.

Lemma NoDup_occurrences (l : list string) :
  NoDup l <-> forall k, (occurrences k l <= 1)%nat.
Proof.
  induction l as [|x l IH].
  - split; [intros _ k; unfold occurrences; cbn; lia|constructor].
  - rewrite NoDup_cons, IH. setoid_rewrite occurrences_cons. split.
    + intros [Hx H] k. specialize (H k). case_decide; [subst k|lia].
      apply occurrences_none in Hx. lia.
    + intros H. split.
      * apply occurrences_none. specialize (H x). rewrite decide_True in H by done. lia.
      * intros k. specialize (H k). lia.
Qed.

(** A list in which only "DEPTH" is repeated, and that twice, splits
    around its two occurrences. *)
Lemma depth_twice_split (headers : list string) :
  ~ NoDup headers -> depth_twice headers ->
  exists a b c, headers = a ++ ["DEPTH"] ++ b ++ ["DEPTH"] ++ c /\ "DEPTH" ∉ a ++ b ++ c.
Proof.
  intros Hdup Hd.
  assert (occurrences "DEPTH" headers = 2%nat) as H2.
  { destruct (decide ("DEPTH" ∈ headers)) as [Hin|Hin]; [by apply Hd in Hin|].
    exfalso. apply Hdup, NoDup_occurrences. intros k.
    destruct (decide (k ∈ headers)) as [Hk|Hk].
    - rewrite (Hd k Hk), decide_False; [lia|]. by intros ->.
    - apply occurrences_none in Hk. lia. }
  assert ("DEPTH" ∈ headers) as Hin by (apply dec_stable; intros ?%occurrences_none; lia).
  apply list_elem_of_split_l in Hin as (a & l & -> & Ha).
  rewrite occurrences_app, occurrences_cons, decide_True in H2 by done.
  pose proof (proj1 (occurrences_none _ _) Ha) as Ha0.
  assert ("DEPTH" ∈ l) as Hin by (apply dec_stable; intros ?%occurrences_none; lia).
  apply list_elem_of_split_l in Hin as (b & c & -> & Hb).
  rewrite occurrences_app, occurrences_cons, decide_True in H2 by done.
  exists a, b, c. split; [done|]. rewrite !not_elem_of_app. repeat split; try done.
  apply occurrences_none. lia.
Qed.

Lemma list_index_app_r (x : string) (l1 l2 : list string) :
  x ∉ l1 -> Py.list_index x (l1 ++ x :: l2) = Some (length l1).
Proof.
  induction l1 as [|y l1 IH]; cbn [app Py.list_index length].
  - by rewrite String.eqb_refl.
  - intros [Hne Hx]%not_elem_of_cons.
    destruct (String.eqb_spec y x) as [->|_]; [done|]. by rewrite IH.
Qed.

Lemma insert_middle (a c : list string) (x y : string) :
  <[length a := y]> (a ++ x :: c) = a ++ y :: c.
Proof. by rewrite insert_app_r_alt, Nat.sub_diag by lia. Qed.

Lemma resolve_duplicates_repeated (u k : option nat) (headers : list string) :
  ~ NoDup headers ->
  resolve_duplicates u k headers =
    (_ ← check_counts (Counter headers);
     c ← gt k u;
     if c : bool then
       idx ← list_index_exn (rev headers) "DEPTH";
       Ok (<[(length headers - idx - 1)%nat := "CDEPTH"]> headers)
     else Ok headers).
Proof.
  intros Hdup. unfold resolve_duplicates.
  destruct (Nat.eqb_spec (length headers) (size (list_to_set headers : gset string)))
    as [E|_]; [by apply length_set_NoDup in E|]. cbn [negb].
  destruct (check_counts _); [|done]. cbn [mbind result_bind].
  destruct (gt k u) as [[]|]; [done| |done]. reflexivity.
Qed.

Lemma resolve_duplicates_unique (u k : option nat) (headers : list string) :
  NoDup headers -> resolve_duplicates u k headers = Ok headers.
Proof.
  intros H%length_set_NoDup. unfold resolve_duplicates.
  by rewrite (proj2 (Nat.eqb_eq _ _) H).
Qed.

(** The check for repeated headers works on the labels as they are
    spelled: labels that are all different pass unchanged, whatever the
    markers are and even when two of them are aliases of one field name; a
    repetition other than "DEPTH" twice with every other label once raises
    [ValueError]. *)
Theorem resolve_duplicates_checks_labels (u k : option nat) (headers : list string) :
  (NoDup headers -> resolve_duplicates u k headers = Ok headers) /\
  (~ NoDup headers -> ~ depth_twice headers ->
     resolve_duplicates u k headers = Raise ValueError).
Proof.
  split; [apply resolve_duplicates_unique|].
  - intros Hdup Hd. rewrite resolve_duplicates_repeated by done.
    by destruct (check_counts_Counter headers) as [[_ ?]|[-> _]].
Qed.

Lemma resolve_duplicates_checks_labels_witness :
  resolve_duplicates None None ["STNNBR"; "PARAM"; "PARAMS"] = Ok ["STNNBR"; "PARAM"; "PARAMS"] /\
  resolve_duplicates (Some 2%nat) (Some 9%nat) ["DEPTH"; "DEPTH"; "DEPTH"] = Raise ValueError.
Proof.
  split.
  - apply (resolve_duplicates_checks_labels None None ["STNNBR"; "PARAM"; "PARAMS"]).
    refine (bool_decide_unpack _ _). vm_compute. exact I.
  - apply (resolve_duplicates_checks_labels (Some 2%nat) (Some 9%nat) ["DEPTH"; "DEPTH"; "DEPTH"]).
    + intros H. apply (bool_decide_pack _) in H. vm_compute in H. exact H.
    + intros H. specialize (H "DEPTH"). vm_compute in H.
      assert (3 = 2)%nat as E; [|discriminate E].
      apply H. apply list_elem_of_In. left. reflexivity.
Defined.

(** When "DEPTH" is the only repeated label, and appears twice, and the
    marker of the corrected depth ("COR", or "XXX") is further right in the
    line above the header than "UNC", the last "DEPTH" becomes "CDEPTH";
    the first one stays. *)
Theorem resolve_duplicates_retags_last (u k : nat) (headers : list string) :
  ~ NoDup headers -> depth_twice headers -> (u < k)%nat ->
  exists a b c,
    headers = a ++ ["DEPTH"] ++ b ++ ["DEPTH"] ++ c /\ ("DEPTH" ∉ a ++ b ++ c) /\
    resolve_duplicates (Some u) (Some k) headers = Ok (a ++ ["DEPTH"] ++ b ++ ["CDEPTH"] ++ c).
Proof.
  intros Hdup Hd Huk. destruct (depth_twice_split headers Hdup Hd) as (a & b & c & E & Hn).
  exists a, b, c. split; [done|]. split; [done|].
  rewrite resolve_duplicates_repeated by done.
  destruct (check_counts_Counter headers) as [[-> _]|[_ ?]]; [|done].
  cbn [mbind result_bind gt]. rewrite (proj2 (Nat.ltb_lt _ _) Huk).
  rewrite !not_elem_of_app in Hn. destruct Hn as (Ha & Hb & Hc).
  unfold list_index_exn. subst headers.
  replace (rev (a ++ ["DEPTH"] ++ b ++ ["DEPTH"] ++ c))
    with (rev c ++ "DEPTH" :: rev (a ++ ["DEPTH"] ++ b)).
  2:{ rewrite !rev_app_distr. cbn [rev app]. by rewrite <- !app_assoc. }
  rewrite list_index_app_r
    by (intros H; apply Hc; by apply list_elem_of_In, in_rev, list_elem_of_In).
  cbn [mbind result_bind]. f_equal.
  replace (a ++ ["DEPTH"] ++ b ++ ["DEPTH"] ++ c)
    with ((a ++ ["DEPTH"] ++ b) ++ "DEPTH" :: c) by (by rewrite <- !app_assoc).
  replace (length ((a ++ ["DEPTH"] ++ b) ++ "DEPTH" :: c) - length (rev c) - 1)%nat
    with (length (a ++ ["DEPTH"] ++ b))
    by (rewrite length_rev, !length_app; cbn [length]; lia).
  rewrite insert_middle. by rewrite <- !app_assoc.
Qed.

Lemma resolve_duplicates_retags_last_witness :
  exists a b c,
    ["STNNBR"; "DEPTH"; "NAV"; "DEPTH"; "COMMENTS"] = a ++ ["DEPTH"] ++ b ++ ["DEPTH"] ++ c /\
    ("DEPTH" ∉ a ++ b ++ c) /\
    resolve_duplicates (Some 20%nat) (Some 31%nat) ["STNNBR"; "DEPTH"; "NAV"; "DEPTH"; "COMMENTS"]
      = Ok (a ++ ["DEPTH"] ++ b ++ ["CDEPTH"] ++ c).
Proof.
  apply (resolve_duplicates_retags_last 20 31 ["STNNBR"; "DEPTH"; "NAV"; "DEPTH"; "COMMENTS"]).
  - intros H. apply (bool_decide_pack _) in H. vm_compute in H. exact H.
  - intros h Hh. apply list_elem_of_In in Hh.
    destruct Hh as [<-|[<-|[<-|[<-|[<-|[]]]]]]; vm_compute; reflexivity.
  - lia.
Defined.

(** With the same repetition, a marker that is missing from the line
    above the header makes the comparison of the offsets raise [TypeError];
    and when the marker of the corrected depth is left of "UNC", nothing is
    renamed: both columns keep the label "DEPTH". *)
Theorem resolve_duplicates_unordered (uncorrected corrected : option nat)
    (headers : list string) :
  ~ NoDup headers -> depth_twice headers ->
  (uncorrected = None \/ corrected = None ->
     resolve_duplicates uncorrected corrected headers = Raise TypeError) /\
  (forall u k, uncorrected = Some u -> corrected = Some k -> (k <= u)%nat ->
     resolve_duplicates uncorrected corrected headers = Ok headers).
Proof.
  intros Hdup Hd. rewrite resolve_duplicates_repeated by done.
  destruct (check_counts_Counter headers) as [[-> _]|[_ ?]]; [|done].
  cbn [mbind result_bind]. split.
  - intros [->| ->]; [by destruct corrected|done].
  - intros u k -> -> Hle. cbn [gt mbind result_bind].
    by rewrite (proj2 (Nat.ltb_ge _ _) Hle).
Qed.

Lemma resolve_duplicates_unordered_witness :
  resolve_duplicates (Some 20%nat) None ["DEPTH"; "NAV"; "DEPTH"] = Raise TypeError /\
  resolve_duplicates (Some 31%nat) (Some 20%nat) ["DEPTH"; "NAV"; "DEPTH"]
    = Ok ["DEPTH"; "NAV"; "DEPTH"].
Proof.
  assert (~ NoDup ["DEPTH"; "NAV"; "DEPTH"]) as Hdup.
  { intros H. apply (bool_decide_pack _) in H. vm_compute in H. exact H. }
  assert (depth_twice ["DEPTH"; "NAV"; "DEPTH"]) as Hd.
  { intros h Hh. apply list_elem_of_In in Hh.
    destruct Hh as [<-|[<-|[<-|[]]]]; vm_compute; reflexivity. }
  split.
  - apply (resolve_duplicates_unordered (Some 20%nat) None _ Hdup Hd). by right.
  - apply (proj2 (resolve_duplicates_unordered (Some 31%nat) (Some 20%nat) _ Hdup Hd) 31%nat 20%nat);
      [reflexivity|reflexivity|lia].
Defined.

(** ** Where exceptions come from *)

(** The exceptions of the steps after the search of the separator. *)
Definition from_builtin (e : exn) : Prop :=
  match e with
  | IndexError | KeyError _ | ValueError | TypeError => True
  | InvalidSumError _ | UnboundLocalError _ => False
  end.

Lemma mapM_subscript_raises {V} (d : gmap string V) (l : list string) (e : exn) :
  mapM (subscript d) l = Raise e -> exists k, k ∈ l /\ d !! k = None /\ e = KeyError k.
Proof.
  induction l as [|x l IH]; cbn [mapM]; [done|].
  destruct (subscript d x) as [v|e'] eqn:E; cbn [mbind result_bind].
  - destruct (mapM (subscript d) l) as [ys|e'']; cbn [mbind result_bind]; [done|].
    intros [= <-]. destruct (IH eq_refl) as (k & ? & ? & ?).
    exists k. split; [by right|done].
  - intros [= <-]. unfold subscript in E. destruct (d !! x) eqn:E'; [done|].
    injection E as <-. exists x. split; [by left|done].
Qed.

Lemma getitem_raises {A} (l : list A) (i : Z) (e : exn) :
  Py.getitem l i = Raise e -> e = IndexError.
Proof.
  unfold Py.getitem. destruct (_ <? 0)%Z; [by intros [= <-]|].
  destruct (l !! _); [done|by intros [= <-]].
Qed.

Lemma resolve_duplicates_raises (u k : option nat) (headers : list string) (e : exn) :
  resolve_duplicates u k headers = Raise e -> e = ValueError \/ e = TypeError.
Proof.
  destruct (decide (NoDup headers)) as [H|H].
  - by rewrite (resolve_duplicates_unique u k headers H).
  - rewrite resolve_duplicates_repeated by done.
    destruct (check_counts_Counter headers) as [[-> _]|[-> _]]; [|intros [= <-]; by left].
    cbn [mbind result_bind]. destruct k as [k|], u as [u|]; cbn [gt mbind result_bind];
      try (intros [= <-]; by right).
    destruct (u <? k)%nat; [|done]. unfold list_index_exn.
    destruct (Py.list_index _ _); [done|]. intros [= <-]. by left.
Qed.

Lemma latlon_get_raises (q : deque) (e : exn) :
  latlon_get q = Raise e ->
  (e = IndexError /\ (length q < 3)%nat) \/ (exists k, e = KeyError k /\ hem !! k = None).
Proof.
  destruct q as [|d [|m [|h q]]]; try (intros [= <-]; left; split; [done|cbn; lia]).
  rewrite latlon_get_three.
  destruct (PyFloat.of_str _); [|done]. destruct (PyFloat.of_str _); [|done].
  unfold subscript. destruct (hem !! _) eqn:E; [done|].
  intros [= <-]. right. by eexists.
Qed.

Lemma getter_raises (h : string) (get : getter) (q : deque) (e : exn) :
  GETTERS !! h = Some get -> get q = Raise e -> get = latlon_get.
Proof.
  intros [[-> _]|[Hin _]]%GETTERS_lookup; [done|]. set_unfold.
  destruct Hin as [->|[->|[->|[]]]].
  - by destruct q.
  - rewrite ?params_get_cons. destruct q as [|t q]; [done|].
    rewrite params_get_cons. by destruct (forallb _ _).
  - done.
Qed.

Lemma decode_fields_raises (hs : list string) (empty : gset string)
    (rd : gmap string value) (q : deque) (e : exn) :
  decode_fields hs empty rd q = Raise e -> e = IndexError \/ exists k, e = KeyError k.
Proof.
  revert rd q. induction hs as [|h hs IH]; intros rd q; [done|].
  cbn [decode_fields]. destruct (bool_decide (h ∈ empty)); [apply IH|].
  unfold subscript. destruct (GETTERS !! h) as [get|] eqn:Eg; cbn [mbind result_bind].
  - destruct (get q) as [[v q']|e'] eqn:Eq; [apply IH|]. intros [= <-].
    rewrite (getter_raises h get q e' Eg Eq) in Eq.
    apply latlon_get_raises in Eq as [[-> _]|(k & -> & _)]; [by left|right; by eexists].
  - intros [= <-]. right. by eexists.
Qed.

Lemma rows_raises (L : layout) (lines : list string) (e : exn) :
  raised (rows L lines) = Some e -> e = IndexError \/ exists k, e = KeyError k.
Proof.
  induction lines as [|line lines IH]; [done|]. rewrite rows_cons. unfold decode_row.
  destruct (decode_fields _ _ _ _) as [[r q]|e'] eqn:E; cbn [fmap result_fmap raised]; [done|].
  intros [= <-]. by eapply decode_fields_raises.
Qed.

Lemma resolve_raises (preheader header : string) (body0 empty_cols : list string) (e : exn) :
  resolve preheader header body0 empty_cols = Raise e -> from_builtin e.
Proof.
  unfold resolve. destruct (depth_markers preheader) as [u c].
  destruct (mapM _ empty_cols) as [ne|e'] eqn:E1; cbn [mbind result_bind].
  2:{ intros [= <-]. by apply mapM_subscript_raises in E1 as (k & _ & _ & ->). }
  destruct (resolve_duplicates u c _) as [hs|e'] eqn:E2; cbn [mbind result_bind].
  2:{ intros [= <-]. by apply resolve_duplicates_raises in E2 as [->| ->]. }
  destruct (mapM _ hs) as [nh|e'] eqn:E3; cbn [mbind result_bind].
  2:{ intros [= <-]. by apply mapM_subscript_raises in E3 as (k & _ & _ & ->). }
  destruct (Py.getitem body0 0) as [first|e'] eqn:E4; cbn [mbind result_bind]; [done|].
  intros [= <-]. by apply getitem_raises in E4 as ->.
Qed.

(** ** The separator and the lines around it *)

(** The test of the search loop: the line, stripped on both sides, starts
    with ten dashes. *)
Definition is_separator (line : string) : bool :=
  Py.startswith (Py.strip line) "----------".
Global Arguments is_separator : simpl never.

Lemma find_separator_None (lines : list string) (i0 : nat) :
  find_separator lines i0 = None <-> Forall (fun line => is_separator line = false) lines.
Proof.
  revert i0. induction lines as [|line lines IH]; intros i0; cbn [find_separator].
  - split; [constructor|done].
  - fold (is_separator line). rewrite Forall_cons.
    destruct (is_separator line); [split; [done|by intros [? _]]|].
    rewrite IH. tauto.
Qed.

Lemma find_separator_Some (lines : list string) (i0 i : nat) :
  find_separator lines i0 = Some i <->
  exists j, i = (i0 + j)%nat /\
    (exists line, lines !! j = Some line /\ is_separator line = true) /\
    (forall j' line, (j' < j)%nat -> lines !! j' = Some line -> is_separator line = false).
Proof.
  revert i0. induction lines as [|line lines IH]; intros i0; cbn [find_separator].
  - split; [done|]. by intros (j & _ & (l & ? & _) & _).
  - fold (is_separator line). destruct (is_separator line) eqn:E.
    + split.
      * intros [= <-]. exists 0%nat. split; [lia|]. split; [by exists line|]. lia.
      * intros (j & -> & _ & Hfirst). destruct j as [|j]; [f_equal; lia|].
        assert (is_separator line = false) by (apply (Hfirst 0%nat); [lia|reflexivity]).
        congruence.
    + rewrite IH. split.
      * intros (j & -> & Hj & Hfirst). exists (S j). split; [lia|]. split; [done|].
        intros [|j'] l Hlt; cbn; [by intros [= <-]|]. apply Hfirst. lia.
      * intros (j & -> & (l & Hl & Hs) & Hfirst). destruct j as [|j].
        { cbn in Hl. injection Hl as <-. congruence. }
        exists j. split; [lia|]. split; [by exists l|].
        intros j' l' Hlt Hl'. apply (Hfirst (S j') l'); [lia|done].
Qed.

(** The separator is the first line that, stripped, starts with ten
    dashes: the search returns its index, and returns nothing exactly when
    no line passes the test. *)
Theorem find_separator_first (lines : list string) :
  (forall i, find_separator lines 0 = Some i <->
     (exists line, lines !! i = Some line /\ is_separator line = true) /\
     (forall j line, (j < i)%nat -> lines !! j = Some line -> is_separator line = false)) /\
  (find_separator lines 0 = None <-> forall line, line ∈ lines -> is_separator line = false).
Proof.
  split.
  - intros i. rewrite find_separator_Some. split.
    + by intros (j & -> & ? & ?).
    + intros [? ?]. by exists i.
  - by rewrite find_separator_None, Forall_forall.
Qed.

Lemma getitem_nat {A} (l : list A) (j : nat) :
  Py.getitem l (Z.of_nat j) =
    match l !! j with Some x => Ok x | None => Raise IndexError end.
Proof.
  unfold Py.getitem.
  destruct (Z.ltb_spec (Z.of_nat j) 0) as [?|_]; [lia|].
  destruct (Z.ltb_spec (Z.of_nat j) 0) as [?|_]; [lia|]. by rewrite Nat2Z.id.
Qed.

Lemma getitem_negative {A} (l : list A) (k : nat) :
  (0 < k)%nat ->
  Py.getitem l (- Z.of_nat k) =
    if (k <=? length l)%nat
    then match l !! (length l - k)%nat with Some x => Ok x | None => Raise IndexError end
    else Raise IndexError.
Proof.
  intros Hk. unfold Py.getitem.
  destruct (Z.ltb_spec (- Z.of_nat k) 0) as [_|?]; [|lia].
  destruct (Nat.leb_spec k (length l)) as [Hle|Hgt].
  - destruct (Z.ltb_spec (- Z.of_nat k + Z.of_nat (length l)) 0) as [?|_]; [lia|].
    by replace (Z.to_nat (- Z.of_nat k + Z.of_nat (length l))) with (length l - k)%nat by lia.
  - by destruct (Z.ltb_spec (- Z.of_nat k + Z.of_nat (length l)) 0) as [_|?]; [|lia].
Qed.

Lemma prepare_found (data : string) (empty_cols : list string) (i : nat) :
  Py.is_ascii data = true -> find_separator (Py.splitlines data) 0 = Some i ->
  prepare data empty_cols =
    (preheader ← Py.getitem (Py.splitlines data) (Z.of_nat i - 2);
     header ← Py.getitem (Py.splitlines data) (Z.of_nat i - 1);
     resolve preheader header (drop (i + 1) (Py.splitlines data)) empty_cols).
Proof. intros Ha Hi. unfold prepare. by rewrite Ha, Hi. Qed.

(** When the separator is the third line or a later one, the header is
    the line just above it, the line above the header is searched for the
    depth markers, and the body is every line after the separator. *)
Theorem prepare_header_lines (data : string) (empty_cols : list string) (i : nat) :
  Py.is_ascii data = true -> find_separator (Py.splitlines data) 0 = Some i ->
  (2 <= i)%nat ->
  exists preheader header,
    Py.splitlines data !! (i - 2)%nat = Some preheader /\
    Py.splitlines data !! (i - 1)%nat = Some header /\
    prepare data empty_cols =
      resolve preheader header (drop (i + 1) (Py.splitlines data)) empty_cols.
Proof.
  intros Ha Hi Hge. rewrite (prepare_found _ _ i Ha Hi).
  apply find_separator_Some in Hi as (j & Hj & (sep & Hsep & _) & _).
  cbn in Hj. subst j. apply lookup_lt_Some in Hsep.
  destruct (lookup_lt_is_Some_2 (Py.splitlines data) (i - 2)) as [p Hp]; [lia|].
  destruct (lookup_lt_is_Some_2 (Py.splitlines data) (i - 1)) as [h Hh]; [lia|].
  exists p, h. split; [done|]. split; [done|].
  replace (Z.of_nat i - 2)%Z with (Z.of_nat (i - 2)) by lia.
  replace (Z.of_nat i - 1)%Z with (Z.of_nat (i - 1)) by lia.
  by rewrite !getitem_nat, Hp, Hh.
Qed.

Definition sample_cast : string :=
  file [ "R/V KNORR CRUISE 138";
         "SHIP/CRS       WOCE               CAST         UTC           POSITION                UNC   COR";
         "EXPOCODE       SECT STNNBR CASTNO TYPE DATE   TIME CODE LATITUDE   LONGITUDE   NAV DEPTH DEPTH COMMENTS";
         "----------------------------------------------------------------------------------------------------";
         "316N138/3      PR16    1      1  ROS 101393 0209  BE 46 59.97 N  43 14.98 W GPS  4925  4930 CALM SEA";
         "316N138/3      PR16    1      1  ROS 101393 0330  BO 46 59.79 N  43 15.21 W GPS  4921  4926";
         "316N138/3      PR16    2      1  ROS 101393 0741  BE 46 30.1  S  43 20.0  E GPS  4850  4855 SWELL" ].

Lemma prepare_header_lines_witness :
  exists preheader header,
    Py.splitlines sample_cast !! (3 - 2)%nat = Some preheader /\
    Py.splitlines sample_cast !! (3 - 1)%nat = Some header /\
    prepare sample_cast [] = resolve preheader header (drop (3 + 1) (Py.splitlines sample_cast)) [].
Proof.
  apply (prepare_header_lines sample_cast [] 3); [vm_compute; reflexivity | vm_compute; reflexivity | lia].
Defined.

(** When the separator is the first or the second line, the indices of
    the lines above it are negative and count from the end of the file:
    with the separator on the second line the markers are searched in the
    last line of the file; with the separator on the first line the header
    is the last line and the markers are searched in the one before it,
    and a file of that single line raises [IndexError]. *)
Theorem prepare_wraps_around (data : string) (empty_cols : list string) (i : nat) :
  Py.is_ascii data = true -> find_separator (Py.splitlines data) 0 = Some i ->
  (i < 2)%nat ->
  let lines := Py.splitlines data in
  let n := length lines in
  (i = 1%nat ->
     exists header last, lines !! 0%nat = Some header /\ lines !! (n - 1)%nat = Some last /\
       prepare data empty_cols = resolve last header (drop 2 lines) empty_cols) /\
  (i = 0%nat -> (2 <= n)%nat ->
     exists before last, lines !! (n - 2)%nat = Some before /\ lines !! (n - 1)%nat = Some last /\
       prepare data empty_cols = resolve before last (drop 1 lines) empty_cols) /\
  (i = 0%nat -> n = 1%nat -> prepare data empty_cols = Raise IndexError).
Proof.
  intros Ha Hi Hlt lines n. rewrite (prepare_found _ _ i Ha Hi). fold lines.
  apply find_separator_Some in Hi as (j & Hj & (sep & Hsep & _) & _).
  cbn in Hj. subst j. fold lines in Hsep. apply lookup_lt_Some in Hsep. fold n in Hsep.
  split; [|split].
  - intros ->. change (Z.of_nat 1 - 2)%Z with (- Z.of_nat 1)%Z.
    change (Z.of_nat 1 - 1)%Z with (Z.of_nat 0).
    rewrite getitem_negative, getitem_nat by lia. fold n.
    destruct (lookup_lt_is_Some_2 lines 0) as [h Hh]; [fold n; lia|].
    destruct (lookup_lt_is_Some_2 lines (n - 1)) as [l Hl]; [fold n; lia|].
    exists h, l. split; [done|]. split; [done|].
    rewrite (proj2 (Nat.leb_le 1 n)) by lia. by rewrite Hl, Hh.
  - intros -> Hn. change (Z.of_nat 0 - 2)%Z with (- Z.of_nat 2)%Z.
    change (Z.of_nat 0 - 1)%Z with (- Z.of_nat 1)%Z.
    rewrite !getitem_negative by lia. fold n.
    destruct (lookup_lt_is_Some_2 lines (n - 2)) as [p Hp]; [fold n; lia|].
    destruct (lookup_lt_is_Some_2 lines (n - 1)) as [l Hl]; [fold n; lia|].
    exists p, l. split; [done|]. split; [done|].
    rewrite (proj2 (Nat.leb_le 1 n)), (proj2 (Nat.leb_le 2 n)) by lia. by rewrite Hp, Hl.
  - intros -> Hn. change (Z.of_nat 0 - 2)%Z with (- Z.of_nat 2)%Z.
    rewrite getitem_negative by lia. fold n. rewrite Hn. reflexivity.
Qed.

Definition sample_header_first : string :=
  file [ "STNNBR CASTNO";
         "-------------";
         "1      2" ].

Lemma prepare_wraps_around_witness :
  exists header last,
    Py.splitlines sample_header_first !! 0%nat = Some header /\
    Py.splitlines sample_header_first !! (length (Py.splitlines sample_header_first) - 1)%nat
      = Some last /\
    prepare sample_header_first [] =
      resolve last header (drop 2 (Py.splitlines sample_header_first)) [].
Proof.
  refine (proj1 (prepare_wraps_around sample_header_first [] 1 _ _ _) eq_refl);
    [vm_compute; reflexivity | vm_compute; reflexivity | lia].
Defined.

(** ** The two exceptions of the first steps *)

Lemma is_ascii_false (data : string) :
  Py.is_ascii data = false <-> exists c, c ∈ Py.chars data /\ (128 <= Py.code c)%nat.
Proof.
  unfold Py.is_ascii. induction (Py.chars data) as [|c l IH]; cbn [forallb].
  - split; [done|]. by intros (c & ?%elem_of_nil & _).
  - destruct (Nat.ltb_spec (Py.code c) 128) as [Hlt|Hge]; cbn [andb].
    + rewrite IH. split.
      * intros (x & ? & ?). exists x. split; [by right|done].
      * intros (x & [->|?]%elem_of_cons & ?); [lia|by exists x].
    + split; [|done]. intros _. exists c. split; [by left|done].
Qed.

Lemma read_sum_raises (data : string) (empty_cols : list string) (e : exn) :
  raised (read_sum data empty_cols) = Some e ->
  (Py.is_ascii data = false /\ e = InvalidSumError "Sum files must be ASCII") \/
  (Py.is_ascii data = true /\ find_separator (Py.splitlines data) 0 = None /\
     e = UnboundLocalError "e") \/
  (Py.is_ascii data = true /\ is_Some (find_separator (Py.splitlines data) 0) /\
     from_builtin e).
Proof.
  unfold read_sum. destruct (prepare data empty_cols) as [L|e'] eqn:E.
  - intros [->|[k ->]]%rows_raises; right; right;
      apply prepare_Ok in E as (Ha & i & _ & _ & -> & _); by repeat split.
  - cbn [raised]. intros [= <-]. unfold prepare in E.
    destruct (Py.is_ascii data); cbn [negb] in E; [|left; by injection E as <-].
    right. destruct (find_separator _ 0) as [i|]; [right|left; by injection E as <-].
    split; [done|]. split; [done|].
    destruct (Py.getitem _ (Z.of_nat i - 2)) as [p|x] eqn:Ep; cbn [mbind result_bind] in E.
    2:{ injection E as <-. by apply getitem_raises in Ep as ->. }
    destruct (Py.getitem _ (Z.of_nat i - 1)) as [h|x] eqn:Eh; cbn [mbind result_bind] in E.
    2:{ injection E as <-. by apply getitem_raises in Eh as ->. }
    by eapply resolve_raises.
Qed.

(** [InvalidSumError] is raised for the input that has a byte above 127,
    before anything is yielded, and for no other input: in particular not
    when the separator is missing. *)
Theorem invalid_sum_error_iff_not_ascii (data : string) (empty_cols : list string) :
  (Py.is_ascii data = false <-> exists c, c ∈ Py.chars data /\ (128 <= Py.code c)%nat) /\
  (Py.is_ascii data = false ->
     read_sum data empty_cols = Raised (InvalidSumError "Sum files must be ASCII")) /\
  (forall msg, raised (read_sum data empty_cols) = Some (InvalidSumError msg) ->
     Py.is_ascii data = false).
Proof.
  split; [apply is_ascii_false|]. split.
  - intros H. unfold read_sum, prepare. by rewrite H.
  - intros msg [[? _]|[(_ & _ & [=])|(_ & _ & [])]]%read_sum_raises. done.
Qed.

Lemma invalid_sum_error_iff_not_ascii_witness :
  read_sum (file ["caf" ++ String (ascii_of_nat 233) ""]%string) [] =
    Raised (InvalidSumError "Sum files must be ASCII").
Proof.
  apply (invalid_sum_error_iff_not_ascii (file ["caf" ++ String (ascii_of_nat 233) ""]%string) []).
  vm_compute. reflexivity.
Defined.

(** For ASCII input in which no line, stripped, starts with ten dashes,
    the [raise ... from e] of the search loop reads the unbound local [e]:
    [read_sum] raises [UnboundLocalError] before anything is yielded; and
    that exception has no other cause. *)
Theorem no_separator_unbound_local (data : string) (empty_cols : list string) :
  Py.is_ascii data = true ->
  ((forall line, line ∈ Py.splitlines data -> is_separator line = false) ->
     read_sum data empty_cols = Raised (UnboundLocalError "e")) /\
  (forall name, raised (read_sum data empty_cols) = Some (UnboundLocalError name) ->
     forall line, line ∈ Py.splitlines data -> is_separator line = false).
Proof.
  intros Ha. split.
  - intros H. apply Forall_forall, (find_separator_None _ 0) in H.
    unfold read_sum, prepare. by rewrite Ha, H.
  - intros name [[_ [=]]|[(_ & H & _)|(_ & _ & [])]]%read_sum_raises.
    by apply Forall_forall, (find_separator_None _ 0).
Qed.

Lemma no_separator_unbound_local_witness :
  read_sum (file ["EXPOCODE STNNBR"; "- - - - - - - -"; "316N138/3 1"]) [] =
    Raised (UnboundLocalError "e").
Proof.
  apply (no_separator_unbound_local (file ["EXPOCODE STNNBR"; "- - - - - - - -"; "316N138/3 1"]) []).
  - vm_compute. reflexivity.
  - intros line Hin. apply list_elem_of_In in Hin.
    vm_compute in Hin. destruct Hin as [<-|[<-|[<-|[]]]]; vm_compute; reflexivity.
Defined.

(** ** The alias table *)

Lemma invert_values_spelling (key : string) (values : list string)
    (inv : gmap string string) k v :
  foldl (fun inv value => <[value := key]> inv) inv values !! k = Some v ->
  (v = key /\ k ∈ values) \/ inv !! k = Some v.
Proof.
  revert inv. induction values as [|x values IH]; intros inv; cbn [foldl]; [by right|].
  intros [[-> ?]|H]%IH; [left; split; [done|by right]|].
  rewrite lookup_insert in H. case_decide; [|by right].
  left. split; [congruence|]. subst. by left.
Qed.

Lemma invert_table_spelling (P : list (string * list string)) (inv : gmap string string) k v :
  foldl (fun inv '(key, values) =>
           foldl (fun inv value => <[value := key]> inv) inv values) inv P !! k = Some v ->
  (exists values, (v, values) ∈ P /\ k ∈ values) \/ inv !! k = Some v.
Proof.
  revert inv. induction P as [|[key values] P IH]; intros inv; cbn [foldl]; [by right|].
  intros [(vs & ? & ?)|H]%IH; [left; exists vs; split; [by right|done]|].
  apply invert_values_spelling in H as [[-> ?]|H]; [|by right].
  left. exists values. split; [by left|done].
Qed.

(** The inverted table maps a spelling to a field name exactly when the
    table lists the spelling under that name: no spelling is listed under
    two names, and every other label is a missing key. *)
Theorem alias_table_inverted (spelling key : string) :
  INVERTED_POSSIBILITIES !! spelling = Some key <->
  exists values, (key, values) ∈ POSSIBILITIES /\ spelling ∈ values.
Proof.
  split.
  - intros [H|H]%invert_table_spelling; [done|]. by rewrite lookup_empty in H.
  - intros (values & Hin & Hs). unfold POSSIBILITIES in Hin.
    repeat (apply elem_of_cons in Hin as [[= -> ->]|Hin];
            [repeat (apply elem_of_cons in Hs as [->|Hs]; [vm_compute; reflexivity|]);
             by apply elem_of_nil in Hs|]).
    by apply elem_of_nil in Hin.
Qed.

Lemma mapM_raises_first {A B} (f : A -> result B) (known : list A) (bad : A)
    (rest : list A) (e : exn) :
  Forall (fun x => exists y, f x = Ok y) known -> f bad = Raise e ->
  mapM f (known ++ bad :: rest) = Raise e.
Proof.
  intros Hk Hb. induction Hk as [|x known [y Hy] _ IH]; cbn [app mapM].
  - by rewrite Hb.
  - by rewrite Hy, IH.
Qed.

Lemma mapM_total {A B} (f : A -> result B) (l : list A) :
  Forall (fun x => exists y, f x = Ok y) l -> exists ys, mapM f l = Ok ys.
Proof.
  induction 1 as [|x l [y Hy] _ [ys IH]]; cbn [mapM]; [by eexists|].
  rewrite Hy, IH. by eexists.
Qed.

Lemma subscript_known (k : string) :
  is_Some (INVERTED_POSSIBILITIES !! k) ->
  exists v, subscript INVERTED_POSSIBILITIES k = Ok v.
Proof. intros [v H]. exists v. unfold subscript. by rewrite H. Qed.

Lemma subscript_unknown (k : string) :
  INVERTED_POSSIBILITIES !! k = None ->
  subscript INVERTED_POSSIBILITIES k = Raise (KeyError k).
Proof. intros H. unfold subscript. by rewrite H. Qed.

(** The names in [empty_cols] are looked up before the header is
    checked: the first of them that is not in the alias table raises
    [KeyError] with that name, whatever the header and the body are. *)
Theorem unknown_empty_col_raises (preheader header : string) (body0 : list string)
    (known : list string) (bad : string) (rest : list string) :
  Forall (fun col => is_Some (INVERTED_POSSIBILITIES !! col)) known ->
  INVERTED_POSSIBILITIES !! bad = None ->
  resolve preheader header body0 (known ++ bad :: rest) = Raise (KeyError bad).
Proof.
  intros Hk Hb. unfold resolve. destruct (depth_markers preheader) as [u c].
  rewrite (mapM_raises_first _ known bad rest (KeyError bad)); [done| |by apply subscript_unknown].
  eapply Forall_impl; [done|]. apply subscript_known.
Qed.

Lemma unknown_empty_col_raises_witness :
  resolve "" "DEPTH DEPTH DEPTH" [] (["CASTNO"] ++ "castno" :: ["NAV"]) = Raise (KeyError "castno").
Proof.
  apply (unknown_empty_col_raises "" "DEPTH DEPTH DEPTH" [] ["CASTNO"] "castno" ["NAV"]).
  - constructor; [|constructor]. eexists. vm_compute. reflexivity.
  - vm_compute. reflexivity.
Defined.

(** When the names in [empty_cols] are known and no header label is
    repeated, the first label of the header that is not in the alias table
    raises [KeyError] with that label. *)
Theorem unknown_header_raises (preheader header : string) (body0 empty_cols : list string)
    (known : list string) (bad : string) (rest : list string) :
  Forall (fun col => is_Some (INVERTED_POSSIBILITIES !! col)) empty_cols ->
  split_header header = known ++ bad :: rest ->
  NoDup (split_header header) ->
  Forall (fun label => is_Some (INVERTED_POSSIBILITIES !! label)) known ->
  INVERTED_POSSIBILITIES !! bad = None ->
  resolve preheader header body0 empty_cols = Raise (KeyError bad).
Proof.
  intros He Hs Hnd Hk Hb. unfold resolve. destruct (depth_markers preheader) as [u c].
  destruct (mapM_total (subscript INVERTED_POSSIBILITIES) empty_cols) as [ne ->].
  { eapply Forall_impl; [done|]. apply subscript_known. }
  cbn [mbind result_bind]. rewrite (resolve_duplicates_unique u c _ Hnd).
  cbn [mbind result_bind]. rewrite Hs.
  rewrite (mapM_raises_first _ known bad rest (KeyError bad)); [done| |by apply subscript_unknown].
  eapply Forall_impl; [done|]. apply subscript_known.
Qed.

Lemma unknown_header_raises_witness :
  resolve "" "STNNBR  Castno NAV" ["1 2 GPS"] ["NAV"] = Raise (KeyError "Castno").
Proof.
  apply (unknown_header_raises "" "STNNBR  Castno NAV" ["1 2 GPS"] ["NAV"]
           ["STNNBR"] "Castno" ["NAV"]).
  - constructor; [|constructor]. eexists. vm_compute. reflexivity.
  - vm_compute. reflexivity.
  - refine (bool_decide_unpack _ _). vm_compute. exact I.
  - constructor; [|constructor]. eexists. vm_compute. reflexivity.
  - vm_compute. reflexivity.
Defined.

(** ** Tokens and getters *)

(** The getter of the latitude and of the longitude raises [IndexError]
    exactly when fewer than three tokens are left; the exception leaves
    the loop over the headers. *)
Theorem latlon_get_short_deque (q : deque) :
  (latlon_get q = Raise IndexError <-> (length q < 3)%nat) /\
  (forall h hs empty rd, h ∈ ["lat"; "lon"] -> h ∉ empty -> (length q < 3)%nat ->
     decode_fields (h :: hs) empty rd q = Raise IndexError).
Proof.
  assert ((length q < 3)%nat -> latlon_get q = Raise IndexError) as Hshort.
  { destruct q as [|d [|m [|h q]]]; try done. cbn [length]. lia. }
  split; [split; [|done]|].
  - intros [[_ ?]|(k & [=] & _)]%latlon_get_raises. done.
  - intros h hs empty rd Hh He Hlen.
    rewrite (decode_fields_get empty h hs rd q latlon_get He (GETTERS_latlon h Hh)).
    by rewrite Hshort.
Qed.

Lemma getter_suffix (h : string) (get : getter) (q q' : deque) (v : value) :
  GETTERS !! h = Some get -> get q = Ok (v, q') ->
  q' `suffix_of` q /\ (length q <= length q' + 3)%nat.
Proof.
  intros [[-> _]|[Hin _]]%GETTERS_lookup.
  - destruct q as [|d [|m [|x q]]]; try done. intros H.
    assert (q' = q) as ->.
    { rewrite latlon_get_three in H.
      destruct (PyFloat.of_str _); [|by injection H].
      destruct (PyFloat.of_str _); [|by injection H].
      destruct (subscript hem _); [|done]. by injection H. }
    split; [by exists [d; m; x]|cbn [length]; lia].
  - set_unfold. destruct Hin as [->|[->|[->|[]]]].
    + destruct q as [|t q]; intros [= _ <-]; [split; [done|lia]|].
      split; [by exists [t]|cbn [length]; lia].
    + destruct q as [|t q]; [intros [= _ <-]; split; [done|lia]|]. rewrite params_get_cons.
      destruct (forallb _ _); intros [= _ <-]; [|split; [done|lia]].
      split; [by exists [t]|cbn [length]; lia].
    + intros [= _ <-]. split; [done|lia].
Qed.

(** The getters only remove tokens from the front of the deque, at most
    three for each header: what is left after the headers of a row is a
    suffix of its tokens. *)
Theorem decode_fields_suffix (hs : list string) (empty : gset string)
    (rd r : gmap string value) (q q' : deque) :
  decode_fields hs empty rd q = Ok (r, q') ->
  q' `suffix_of` q /\ (length q <= length q' + 3 * length hs)%nat.
Proof.
  revert rd q. induction hs as [|h hs IH]; intros rd q.
  - intros [= _ <-]. split; [done|lia].
  - cbn [decode_fields length]. destruct (bool_decide (h ∈ empty)).
    + intros [? ?]%IH. split; [done|lia].
    + unfold subscript. destruct (GETTERS !! h) as [get|] eqn:Eg; [|done].
      cbn [mbind result_bind]. destruct (get q) as [[v q1]|x] eqn:Eq; [|done].
      intros [Hs Hl]%IH. destruct (getter_suffix h get q q1 v Eg Eq) as [Hs1 Hl1].
      split; [by etrans|lia].
Qed.

Lemma decode_fields_suffix_witness :
  ["SWELL"] `suffix_of` ["46"; "30.1"; "S"; "GPS"; "SWELL"] /\
  (length ["46"; "30.1"; "S"; "GPS"; "SWELL"] <= length ["SWELL"] + 3 * length ["lat"; "nav"])%nat.
Proof.
  refine (decode_fields_suffix ["lat"; "nav"] ∅ ∅ _ ["46"; "30.1"; "S"; "GPS"; "SWELL"] ["SWELL"] _).
  vm_compute. reflexivity.
Defined.

(** ** The sequence of rows *)

Lemma rows_prefix (L : layout) (lines : list string) :
  exists n, (n <= length lines)%nat /\
    Forall2 (fun line row_data => decode_row L line = Ok row_data)
      (take n lines) (yielded (rows L lines)) /\
    match raised (rows L lines) with
    | None => n = length lines
    | Some e => exists line, lines !! n = Some line /\ decode_row L line = Raise e
    end.
Proof.
  induction lines as [|line lines (n & Hn & Hrows & Hend)].
  - exists 0%nat. repeat split; constructor.
  - rewrite rows_cons. destruct (decode_row L line) as [r|e] eqn:E; cbn [yielded raised].
    + exists (S n). split; [cbn [length]; lia|]. split; [by constructor|].
      destruct (raised (rows L lines)); [done|]. cbn [length]. lia.
    + exists 0%nat. split; [lia|]. split; [constructor|]. by exists line.
Qed.

(** The rows are yielded one for each line of the body, in the order of
    the lines, up to the end of the body or to the first line whose
    decoding raises; that exception ends the sequence. *)
Theorem rows_in_body_order (data : string) (empty_cols : list string) (L : layout) :
  prepare data empty_cols = Ok L ->
  exists n, (n <= length (body L))%nat /\
    Forall2 (fun line row_data => decode_row L line = Ok row_data)
      (take n (body L)) (yielded (read_sum data empty_cols)) /\
    match raised (read_sum data empty_cols) with
    | None => n = length (body L)
    | Some e => exists line, body L !! n = Some line /\ decode_row L line = Raise e
    end.
Proof. intros H. unfold read_sum. rewrite H. apply rows_prefix. Qed.

Definition sample_layout : layout :=
  Layout ["stnnbr"; "castno"; "lat"] ∅ [(0, 3); (5, 8); (10, 12); (13, 17); (18, 19)]%nat
    ["001  002  12 30.0 X"; "001  003  12 30.0 N"].

Lemma rows_in_body_order_witness :
  exists n, (n <= length (body sample_layout))%nat /\
    Forall2 (fun line row_data => decode_row sample_layout line = Ok row_data)
      (take n (body sample_layout)) (yielded (read_sum sample_unknown_hemisphere [])) /\
    match raised (read_sum sample_unknown_hemisphere []) with
    | None => n = length (body sample_layout)
    | Some e => exists line, body sample_layout !! n = Some line /\
                             decode_row sample_layout line = Raise e
    end.
Proof.
  apply (rows_in_body_order sample_unknown_hemisphere [] sample_layout).
  vm_compute. reflexivity.
Defined.

(** ** Column slices *)

(** [p] lies in one of the slices. *)
Definition covered (p : nat) (slices : list (nat * nat)) : Prop :=
  exists a b, (a, b) ∈ slices /\ (a <= p < b)%nat.

(** The slices are not empty, start at [lo] or after it, and each one
    starts after the position that follows the end of the one before. *)
Fixpoint increasing (lo : nat) (slices : list (nat * nat)) : Prop :=
  match slices with
  | [] => True
  | (a, b) :: slices' => (lo <= a)%nat /\ (a < b)%nat /\ increasing (S b) slices'
  end.

Lemma increasing_weaken (lo lo' : nat) (slices : list (nat * nat)) :
  (lo' <= lo)%nat -> increasing lo slices -> increasing lo' slices.
Proof. destruct slices as [|[a b] slices]; [done|]. cbn. intros ? (? & ? & ?). repeat split; [lia|done|done]. Qed.

Lemma covered_cons (p a b : nat) (slices : list (nat * nat)) :
  covered p ((a, b) :: slices) <-> (a <= p < b)%nat \/ covered p slices.
Proof.
  unfold covered. split.
  - intros (a' & b' & [[= -> ->]|Hin]%elem_of_cons & Hp); [by left|right; by exists a', b'].
  - intros [Hp|(a' & b' & Hin & Hp)]; [exists a, b|exists a', b']; (split; [|done]); [by left|by right].
Qed.

Lemma covered_nil (p : nat) : ~ covered p [].
Proof. by intros (a & b & ?%elem_of_nil & _). Qed.

Lemma groupby_head (x : bool) (l : list bool) :
  exists g gs, groupby (x :: l) = (x, x :: g) :: gs.
Proof.
  cbn [groupby]. destruct (groupby l) as [|[y g] gs]; [by exists [], []|].
  destruct (Bool.eqb x y); by eexists _, _.
Qed.

Lemma slices_cons (x : bool) (l : list bool) (pos : nat) :
  slices_from (groupby (x :: l)) pos =
    if x then slices_from (groupby l) (S pos)
    else match l with
         | false :: _ =>
             match slices_from (groupby l) (S pos) with
             | (_, b) :: rest => (pos, b) :: rest
             | [] => []
             end
         | _ => (pos, S pos) :: slices_from (groupby l) (S pos)
         end.
Proof.
  destruct l as [|y l].
  - destruct x; cbn; [done|]. by rewrite Nat.add_1_r.
  - destruct (groupby_head y l) as (g & gs & E).
    change (groupby (x :: y :: l)) with
      (match groupby (y :: l) with
       | (y', g') :: gs' => if Bool.eqb x y' then (x, x :: g') :: gs'
                            else (x, [x]) :: (y', g') :: gs'
       | [] => [(x, [x])]
       end).
    rewrite E. destruct x, y; cbn [Bool.eqb slices_from length app];
      rewrite ?Nat.add_1_r, ?Nat.add_succ_r; cbn [Nat.add]; reflexivity.
Qed.

Lemma slices_head_false (l : list bool) (pos : nat) :
  exists b rest, slices_from (groupby (false :: l)) pos = (pos, b) :: rest.
Proof.
  revert pos. induction l as [|y l IH]; intros pos; rewrite slices_cons.
  - by eexists _, _.
  - destruct y; [by eexists _, _|]. destruct (IH (S pos)) as (b & rest & ->). by eexists _, _.
Qed.

Lemma slices_from_spec (l : list bool) (pos : nat) :
  increasing pos (slices_from (groupby l) pos) /\
  Forall (fun s => (s.2 <= pos + length l)%nat) (slices_from (groupby l) pos) /\
  forall p, covered p (slices_from (groupby l) pos) <->
            (pos <= p)%nat /\ l !! (p - pos)%nat = Some false.
Proof.
  revert pos. induction l as [|x l IH]; intros pos.
  { cbn. split; [done|]. split; [constructor|]. intros p. split; [by intros ?%covered_nil|].
    by intros [_ ?]. }
  destruct (IH (S pos)) as (Hinc & Hbound & Hcov). rewrite slices_cons.
  assert (forall p, (pos < p)%nat -> (x :: l) !! (p - pos)%nat = l !! (p - S pos)%nat) as Hlook.
  { intros p Hp. by replace (p - pos)%nat with (S (p - S pos)) by lia. }
  destruct x.
  - split; [by eapply increasing_weaken; [|done]; lia|].
    split; [eapply Forall_impl; [done|]; cbn; intros; lia|].
    intros p. rewrite Hcov. destruct (decide (p = pos)) as [->|Hne].
    + rewrite Nat.sub_diag. cbn. split; [lia|by intros [_ ?]].
    + destruct (decide (pos < p)%nat); [rewrite Hlook by done|]; naive_solver lia.
  - assert (forall p, (pos <= p < S pos)%nat \/
                      ((S pos <= p)%nat /\ l !! (p - S pos)%nat = Some false) <->
                      (pos <= p)%nat /\ (false :: l) !! (p - pos)%nat = Some false) as Hfalse.
    { intros p. destruct (decide (p = pos)) as [->|Hne].
      - rewrite Nat.sub_diag. cbn. split; [done|]. intros _. left. lia.
      - destruct (decide (pos < p)%nat) as [Hlt|Hge].
        + rewrite Hlook by done. naive_solver lia.
        + naive_solver lia. }
    destruct l as [|[] l'].
    + cbn. split; [repeat split; lia|]. split; [repeat constructor; cbn; lia|].
      intros p. rewrite covered_cons, <- Hfalse. cbn.
      split; [intros [?|?%covered_nil]; [by left|done]|].
      intros [?|[_ ?]]; [by left|done].
    + split; [|split].
      * cbn [increasing]. split; [lia|]. split; [lia|].
        destruct (slices_from (groupby (true :: l')) (S pos)) as [|[a b] rest] eqn:E; [done|].
        cbn [increasing] in Hinc |- *. destruct Hinc as (Ha & Hab & Hrest).
        split; [|done]. destruct (decide (a = S pos)) as [->|]; [|lia].
        assert (covered (S pos) ((S pos, b) :: rest)) as Hc by (apply covered_cons; left; lia).
        apply Hcov in Hc as [_ Hc]. rewrite Nat.sub_diag in Hc. done.
      * constructor; [cbn; lia|]. eapply Forall_impl; [done|]. cbn. intros; lia.
      * intros p. rewrite covered_cons, Hcov. apply Hfalse.
    + destruct (slices_head_false l' (S pos)) as (b & rest & E). rewrite E in *.
      cbn [increasing] in Hinc. destruct Hinc as (_ & Hlt & Hrest).
      apply Forall_cons in Hbound as [Hb Hbound]. cbn in Hb.
      split; [cbn [increasing]; repeat split; [lia|lia|done]|].
      split; [constructor; [cbn [snd length] in *; lia|]; eapply Forall_impl; [done|]; cbn; intros; lia|].
      intros p. rewrite covered_cons, <- Hfalse, <- Hcov, covered_cons.
      destruct (decide (p = pos)); naive_solver lia.
Qed.

Lemma increasing_nonempty (lo : nat) (slices : list (nat * nat)) (a b : nat) :
  increasing lo slices -> (a, b) ∈ slices -> (lo <= a < b)%nat.
Proof.
  revert lo. induction slices as [|[a' b'] slices IH]; intros lo; [by intros _ ?%elem_of_nil|].
  cbn [increasing]. intros (? & ? & Hinc) [[= -> ->]|Hin]%elem_of_cons; [lia|].
  specialize (IH _ Hinc Hin). lia.
Qed.

Lemma increasing_next (lo : nat) (slices : list (nat * nat)) (i a1 b1 a2 b2 : nat) :
  increasing lo slices ->
  slices !! i = Some (a1, b1) -> slices !! S i = Some (a2, b2) -> (b1 < a2)%nat.
Proof.
  revert lo i. induction slices as [|[a b] slices IH]; intros lo i; [done|].
  cbn [increasing]. intros (_ & _ & Hinc). destruct i as [|i]; cbn.
  - intros [= -> ->] H2. destruct slices as [|[a' b'] slices]; [done|].
    injection H2 as -> ->. cbn [increasing] in Hinc. lia.
  - intros H1 H2. by eapply IH.
Qed.

Lemma calculate_slices_columns (space_columns : list bool) :
  (forall p, covered p (calculate_slices space_columns) <-> space_columns !! p = Some false) /\
  (forall a b, (a, b) ∈ calculate_slices space_columns ->
               (a < b <= length space_columns)%nat).
Proof.
  unfold calculate_slices.
  destruct (slices_from_spec space_columns 0) as (Hinc & Hbound & Hcov). split.
  - intros p. rewrite Hcov, Nat.sub_0_r. split; [by intros [_ ?]|]. split; [lia|done].
  - intros a b Hin. pose proof (increasing_nonempty _ _ _ _ Hinc Hin).
    rewrite Forall_forall in Hbound. specialize (Hbound _ Hin). cbn in Hbound. lia.
Qed.

(** [calculate_slices] returns the maximal runs of [False] of its
    argument, from left to right: a position lies in a slice exactly when
    the list holds [False] there, no slice is empty or exceeds the list,
    and two slices in a row are separated by at least one position. *)
Theorem calculate_slices_runs (space_columns : list bool) :
  (forall p, covered p (calculate_slices space_columns) <-> space_columns !! p = Some false) /\
  (forall a b, (a, b) ∈ calculate_slices space_columns ->
               (a < b <= length space_columns)%nat) /\
  (forall i a1 b1 a2 b2,
     calculate_slices space_columns !! i = Some (a1, b1) ->
     calculate_slices space_columns !! S i = Some (a2, b2) -> (b1 < a2)%nat).
Proof.
  destruct (calculate_slices_columns space_columns) as [Hcov Hbound].
  split; [done|]. split; [done|].
  intros i a1 b1 a2 b2. unfold calculate_slices.
  apply increasing_next with (lo := 0%nat). apply slices_from_spec.
Qed.

(** ** The columns of the body *)

Lemma and_longest_lookup (x y : list bool) (p : nat) :
  and_longest x y !! p =
    match x !! p, y !! p with
    | Some a, Some b => Some (a && b)
    | Some a, None => Some a
    | None, Some b => Some b
    | None, None => None
    end.
Proof.
  revert y p. induction x as [|a x IH]; intros y p.
  - destruct y as [|b y]; [done|]. cbn [and_longest]. rewrite list_lookup_fmap.
    rewrite lookup_nil. by destruct ((b :: y) !! p).
  - destruct y as [|b y]; cbn [and_longest].
    + rewrite list_lookup_fmap, lookup_nil.
      destruct ((a :: x) !! p) as [c|]; [|done]. cbn. by rewrite andb_true_r.
    + destruct p as [|p]; [done|]. cbn. apply IH.
Qed.

Lemma space_columns_lookup (init : list bool) (lines : list string) (p : nat) :
  foldl (fun sc line => and_longest sc (is_space line)) init lines !! p = Some false <->
  init !! p = Some false \/ exists line, line ∈ lines /\ is_space line !! p = Some false.
Proof.
  revert init. induction lines as [|line lines IH]; intros init; cbn [foldl].
  - split; [by left|]. intros [?|(l & ?%elem_of_nil & _)]; done.
  - rewrite IH, and_longest_lookup. split.
    + intros [H|(l & ? & ?)]; [|right; exists l; split; [by right|done]].
      destruct (init !! p) as [[]|] eqn:Ei, (is_space line !! p) as [[]|] eqn:El;
        try done; try (by left); right; exists line; (split; [by left|done]).
    + intros [H|(l & [->|Hin]%elem_of_cons & Hl)].
      * left. rewrite H. by destruct (is_space line !! p).
      * left. rewrite Hl. destruct (init !! p) as [[]|]; done.
      * right. by exists l.
Qed.

Lemma is_space_lookup (line : string) (p : nat) :
  is_space line !! p = Some false <->
  exists c, Py.chars line !! p = Some c /\ c <> " "%char.
Proof.
  unfold is_space. rewrite list_lookup_fmap.
  destruct (Py.chars line !! p) as [c|]; cbn; [|split; [done|by intros (? & ? & _)]].
  destruct (Ascii.eqb_spec c " ") as [->|Hne].
  - split; [done|]. by intros (? & [= <-] & ?).
  - split; [|done]. intros _. by exists c.
Qed.

(** The column slices come from the body alone: a position lies in a
    column slice exactly when some line of the body has a character other
    than the space there; the other positions, where every line has a
    space or has ended, separate the columns. *)
Theorem column_slices_of_body (data : string) (empty_cols : list string) (L : layout) :
  prepare data empty_cols = Ok L ->
  forall p, covered p (column_slices L) <->
            exists line c, line ∈ body L /\ Py.chars line !! p = Some c /\ c <> " "%char.
Proof.
  intros (_ & i & ph & h & _ & _ & _ & H)%prepare_Ok.
  apply resolve_Ok in H as (ne & hs & first & _ & _ & _ & Hfirst & ->). cbn [column_slices body].
  intros p. rewrite (proj1 (calculate_slices_columns _)). unfold space_columns.
  rewrite space_columns_lookup. setoid_rewrite is_space_lookup.
  assert (first ∈ drop (i + 1) (Py.splitlines data)) as Hin
    by (apply list_elem_of_lookup; by exists 0%nat).
  split.
  - intros [(c & ? & ?)|(line & ? & c & ? & ?)]; [by exists first, c|by exists line, c].
  - intros (line & c & ? & ? & ?). right. exists line. split; [done|by exists c].
Qed.

Lemma column_slices_of_body_witness :
  covered 14 [(0, 12); (13, 18)]%nat <->
  exists line c, line ∈ ["33RR20160208 extra"] /\ Py.chars line !! 14%nat = Some c /\
                 c <> " "%char.
Proof.
  refine (column_slices_of_body sample_two_slices []
            (Layout ["expocode"] ∅ [(0, 12); (13, 18)]%nat ["33RR20160208 extra"]) _ 14%nat).
  vm_compute. reflexivity.
Defined.

(** ** The labels of the header *)

Lemma chars_app (a b : string) : Py.chars (a ++ b)%string = Py.chars a ++ Py.chars b.
Proof.
  induction a as [|c a IH]; [done|].
  change (c :: Py.chars (a ++ b)%string = c :: Py.chars a ++ Py.chars b). by rewrite IH.
Qed.

Lemma str_chars (s : string) : Py.str (Py.chars s) = s.
Proof. apply string_of_list_ascii_of_string. Qed.

Lemma slices_true (r : list bool) (pos : nat) :
  slices_from (groupby (true :: r)) pos = slices_from (groupby r) (S pos).
Proof. by rewrite slices_cons. Qed.

(** A run of characters other than the space, followed by a space or by
    the end of the line, gives one slice. *)
Lemma slices_run (w : list ascii) (rest : list bool) (pos : nat) :
  w <> [] -> Forall (fun c => c <> " "%char) w ->
  rest = [] \/ (exists r, rest = true :: r) ->
  slices_from (groupby (map (fun l => Ascii.eqb l " ") w ++ rest)) pos =
    (pos, pos + length w)%nat :: slices_from (groupby rest) (pos + length w).
Proof.
  intros Hw Hc Hrest. revert pos. induction Hc as [|c w Hne Hc IH]; intros pos; [done|].
  cbn [map app length]. rewrite (proj2 (Ascii.eqb_neq c " ") Hne), slices_cons.
  destruct w as [|c' w].
  - cbn [map app length]. rewrite Nat.add_1_r.
    by destruct Hrest as [->|[r ->]].
  - rewrite IH by done. inversion_clear Hc as [|? ? Hne' _].
    cbn [map app]. rewrite (proj2 (Ascii.eqb_neq c' " ") Hne').
    by rewrite !Nat.add_succ_r, Nat.add_succ_l.
Qed.

(** A header label: some characters, none of which is the space. *)
Definition label (w : string) : Prop :=
  w <> "" /\ Forall (fun c => c <> " "%char) (Py.chars w).

Lemma label_chars (w : string) : label w -> Py.chars w <> [].
Proof. intros [Hw _] E. apply Hw. by rewrite <- (str_chars w), E. Qed.

Lemma cut_join (labels : list string) (pre : list ascii) :
  Forall label labels ->
  map (fun '(a, b) => take (b - a) (drop a (pre ++ Py.chars (Py.join " " labels))))
      (slices_from (groupby (is_space (Py.join " " labels))) (length pre))
  = map Py.chars labels.
Proof.
  intros H. revert pre. induction H as [|w labels Hw Hl IH]; intros pre; [done|].
  destruct labels as [|w' labels].
  - cbn [Py.join]. unfold is_space. rewrite <- (app_nil_r (map _ (Py.chars w))).
    rewrite slices_run; [|by apply label_chars|apply Hw|by left]. cbn [map].
    f_equal. by rewrite Nat.add_sub', drop_app_length, take_ge.
  - change (Py.join " " (w :: w' :: labels))
      with (w ++ " " ++ Py.join " " (w' :: labels))%string.
    set (J := Py.join " " (w' :: labels)) in *.
    unfold is_space. rewrite !chars_app. change (Py.chars " ") with [" "%char].
    rewrite map_app. change (map _ ([" "%char] ++ Py.chars J)) with (true :: is_space J).
    rewrite slices_run; [|by apply label_chars|apply Hw|right; by eexists].
    rewrite slices_true. cbn [map]. f_equal.
    + by rewrite Nat.add_sub', drop_app_length, take_app_length.
    + specialize (IH (pre ++ Py.chars w ++ [" "%char])).
      rewrite !length_app in IH. cbn [length] in IH.
      replace (length pre + (length (Py.chars w) + 1))%nat
        with (S (length pre + length (Py.chars w))) in IH by lia.
      change (Py.chars w' :: map Py.chars labels) with (map Py.chars (w' :: labels)).
      rewrite <- IH. apply map_ext. intros [a b]. by rewrite <- !app_assoc.
Qed.

(** Labels written on the header line with single spaces between them
    are read back as they are, in their order. *)
Theorem split_header_join (labels : list string) :
  Forall label labels -> split_header (Py.join " " labels) = labels.
Proof.
  intros H. unfold split_header, cut, calculate_slices, Py.slice.
  pose proof (cut_join labels [] H) as E. cbn [app length] in E.
  rewrite <- (map_id labels) at 2. rewrite <- (map_ext _ _ str_chars), <- map_map, <- E, map_map.
  apply map_ext. by intros [a b].
Qed.

Lemma split_header_join_witness :
  split_header (Py.join " " ["EXPOCODE"; "WHP-ID"; "STNNBR"]) = ["EXPOCODE"; "WHP-ID"; "STNNBR"].
Proof.
  apply (split_header_join ["EXPOCODE"; "WHP-ID"; "STNNBR"]).
  repeat constructor; try discriminate.
Defined.

(** ** Tokens against headers *)

Lemma decode_fields_other (hs : list string) (empty : gset string)
    (rd r : gmap string value) (q q' : deque) (k : string) :
  decode_fields hs empty rd q = Ok (r, q') -> k ∉ hs -> r !! k = rd !! k.
Proof.
  revert rd q. induction hs as [|h hs IH]; intros rd q; [by intros [= <- _]|].
  intros H [Hne Hk]%not_elem_of_cons. cbn [decode_fields] in H.
  destruct (bool_decide (h ∈ empty)).
  - by rewrite (IH _ _ H Hk), lookup_insert_ne.
  - destruct (subscript GETTERS h) as [get|x]; [|done]. cbn [mbind result_bind] in H.
    destruct (get q) as [[v q1]|x]; [|done]. by rewrite (IH _ _ H Hk), lookup_insert_ne.
Qed.

(** The tokens of a line are its characters at the positions of the
    slices: token [i] holds the characters of the line from the start of
    slice [i] up to its end or to the end of the line, so a line that has
    ended before a slice gives the empty token for it. *)
Theorem cut_tokens (line : string) (slices : list (nat * nat)) :
  length (cut line slices) = length slices /\
  forall i a b, slices !! i = Some (a, b) ->
    exists token, cut line slices !! i = Some token /\
      (forall j, Py.chars token !! j =
                 if decide (j < b - a)%nat then Py.chars line !! (a + j)%nat else None) /\
      (length (Py.chars line) <= a -> token = "")%nat.
Proof.
  unfold cut. split; [apply length_map|]. intros i a b Hi.
  exists (Py.slice line a b). split; [by rewrite list_lookup_fmap, Hi|].
  unfold Py.slice. split.
  - intros j. unfold Py.str, Py.chars at 1. rewrite list_ascii_of_string_of_list_ascii.
    case_decide.
    + by rewrite lookup_take_lt, lookup_drop by done.
    + by rewrite lookup_take_ge by lia.
  - intros Hle. by rewrite drop_ge, take_nil by done.
Qed.

Lemma cut_tokens_witness :
  exists token, cut "316N138/3  PR16" [(0, 9); (11, 15); (17, 20)]%nat !! 2%nat = Some token /\
    (forall j, Py.chars token !! j =
               if decide (j < 20 - 17)%nat
               then Py.chars "316N138/3  PR16" !! (17 + j)%nat else None) /\
    (length (Py.chars "316N138/3  PR16") <= 17 -> token = "")%nat.
Proof.
  apply (proj2 (cut_tokens "316N138/3  PR16" [(0, 9); (11, 15); (17, 20)]%nat) 2%nat 17%nat 20%nat).
  reflexivity.
Defined.

(** The headers decoded by [simple_get] take the tokens by position: with
    headers that are all different and none declared empty, header [i]
    gets token [i] as it is, or [None] when the tokens have run out, and
    the tokens beyond the headers are left in the deque. *)
Theorem scalar_fields_positional (hs : list string) (rd : gmap string value)
    (tokens : deque) :
  Forall (fun h => GETTERS !! h = Some simple_get) hs -> NoDup hs ->
  exists r,
    decode_fields hs ∅ rd tokens = Ok (r, drop (length hs) tokens) /\
    forall i h, hs !! i = Some h ->
      r !! h = Some (match tokens !! i with Some t => VStr t | None => VNone end).
Proof.
  intros Hs Hnd. revert rd tokens.
  induction Hs as [|h hs Hh _ IH]; intros rd tokens.
  - exists rd. split; [done|]. intros i h Hi. by rewrite lookup_nil in Hi.
  - apply NoDup_cons in Hnd as [Hnin Hnd].
    rewrite (decode_fields_get ∅ h hs rd tokens simple_get (not_elem_of_empty h) Hh).
    destruct tokens as [|t tokens]; cbn [simple_get popleft length drop].
    + destruct (IH Hnd (<[h := VNone]> rd) []) as (r & Hr & Hlook).
      rewrite drop_nil in Hr. exists r. split; [done|].
      intros [|i] k; cbn.
      * intros [= <-]. by rewrite (decode_fields_other _ _ _ _ _ _ _ Hr Hnin), lookup_insert_eq.
      * intros Hk. by rewrite (Hlook i k Hk), lookup_nil.
    + destruct (IH Hnd (<[h := VStr t]> rd) tokens) as (r & Hr & Hlook).
      exists r. split; [done|].
      intros [|i] k; cbn.
      * intros [= <-]. by rewrite (decode_fields_other _ _ _ _ _ _ _ Hr Hnin), lookup_insert_eq.
      * apply Hlook.
Qed.

Lemma scalar_fields_positional_witness :
  exists r,
    decode_fields ["stnnbr"; "castno"; "type"] ∅ ∅ ["  12"; "1"]
      = Ok (r, drop (length ["stnnbr"; "castno"; "type"]) ["  12"; "1"]) /\
    forall i h, ["stnnbr"; "castno"; "type"] !! i = Some h ->
      r !! h = Some (match ["  12"; "1"] !! i with Some t => VStr t | None => VNone end).
Proof.
  apply (scalar_fields_positional ["stnnbr"; "castno"; "type"] ∅ ["  12"; "1"]).
  - repeat constructor.
  - refine (bool_decide_unpack _ _). vm_compute. exact I.
Defined.

(** A row is a dict: when a field name comes more than once among the
    headers, the row keeps the value decoded for its last occurrence. *)
Theorem repeated_header_last_wins (pre post : list string) (h : string)
    (empty : gset string) (rd rd1 r : gmap string value) (q q1 q2 q' : deque)
    (get : getter) (v : value) :
  h ∉ empty -> h ∉ post -> GETTERS !! h = Some get ->
  decode_fields pre empty rd q = Ok (rd1, q1) -> get q1 = Ok (v, q2) ->
  decode_fields (pre ++ h :: post) empty rd q = Ok (r, q') ->
  r !! h = Some v.
Proof.
  intros He Hpost Hg Hpre Hv. rewrite decode_fields_app, Hpre. cbn [mbind result_bind].
  rewrite (decode_fields_get empty h post rd1 q1 get He Hg), Hv.
  intros H. by rewrite (decode_fields_other _ _ _ _ _ _ _ H Hpost), lookup_insert_eq.
Qed.

Lemma repeated_header_last_wins_witness :
  (<["stnnbr" := VStr "1"]> (<["depth" := VStr "4930"]> ∅) : gmap string value) !! "depth"
    = Some (VStr "4930").
Proof.
  refine (repeated_header_last_wins ["depth"] ["stnnbr"] "depth" ∅ ∅
            (<["depth" := VStr "4925"]> ∅) _ ["4925"; "4930"; "1"] ["4930"; "1"] ["1"] []
            simple_get (VStr "4930") _ _ _ _ _ _).
  - apply not_elem_of_empty.
  - intros H. apply list_elem_of_In in H. destruct H as [H|[]]. discriminate H.
  - reflexivity.
  - vm_compute. reflexivity.
  - reflexivity.
  - vm_compute. reflexivity.
Defined.
